(** * psevent: process events over the Linux netlink connector

    A shallow embedding of [psenvent.go] (the capture engine: [Listen],
    [readEvents], [handleEvent], [finish], [Close], [isDone]) and of the
    netlink connector file (wire structs, [createListener], [bind],
    [close], [send]), together with the properties of the wire codec, the
    capture loop and the socket lifecycle.

    Conventions.
    - A Go [uintN] is a [Z]; the wrap-around of a conversion or of an
      increment is written out with [mod], and [binary.Write] stores the
      low [N] bits ([le_split]).  Go's [int] is the 64-bit [int] of the
      supported Linux targets, so [int(x)] of a [uint32] is [x] itself.
    - A byte slice is a [list byte]; [byteOrder] is [binary.LittleEndian],
      so fields are laid out with [le_split] and read with [le_combine].
    - System calls take their outcome from the environment: every function
      that performs one receives the outcome as an argument and threads
      the kernel's table of open descriptors explicitly. *)

From Stdlib Require Import ZArith List Lia Bool.
From coqutil Require Import Byte Word.LittleEndianList.
From stdpp Require Import base gmap.
Import ListNotations.
Local Open Scope Z_scope.

(** ** Constants *)

(** internal flags (from <linux/connector.h>) *)
Definition _CN_IDX_PROC : Z := 0x1.
Definition _CN_VAL_PROC : Z := 0x1.

(** internal flags (from <linux/cn_proc.h>) *)
Definition _PROC_CN_MCAST_LISTEN : Z := 1.
Definition _PROC_CN_MCAST_IGNORE : Z := 2.

(** Flags (from <linux/cn_proc.h>) *)
Definition PROC_EVENT_FORK : Z := 0x00000001.
Definition PROC_EVENT_EXEC : Z := 0x00000002.
Definition PROC_EVENT_EXIT : Z := 0x80000000.

(** Constants of Go's [syscall] package on Linux. *)
Definition NLMSG_HDRLEN : Z := 0x10.
Definition NLMSG_ALIGNTO : Z := 0x4.
Definition NLMSG_DONE : Z := 0x3.
Definition AF_NETLINK : Z := 0x10.

(** [syscall.Errno]. *)
Definition Errno : Type := Z.
Definition EINVAL : Errno := 0x16.

(** ** Fixed-width integers on the wire *)

Definition uint16 (x : Z) : Z := x mod 2 ^ 16.
Definition uint32 (x : Z) : Z := x mod 2 ^ 32.

Definition put16 (x : Z) : list byte := le_split 2 x.
Definition put32 (x : Z) : list byte := le_split 4 x.
Definition put64 (x : Z) : list byte := le_split 8 x.

(** The unsigned little-endian integer of [n] bytes at offset [off]. *)
Definition get (n off : nat) (b : list byte) : Z :=
  le_combine (firstn n (skipn off b)).

(** ** Wire structs *)

(** linux/connector.h: struct cb_id *)
Module cbId.
Record t : Type := mk { Idx : Z; Val : Z }.
Definition zero : t := mk 0 0.
Definition put (c : t) : list byte := put32 (Idx c) ++ put32 (Val c).
Definition decode (b : list byte) : t := mk (get 4 0 b) (get 4 4 b).
End cbId.

(** linux/connector.h: struct cb_msg *)
Module cnMsg.
Record t : Type := mk { Id : cbId.t; Seq : Z; Ack : Z; Len : Z; Flags : Z }.
Definition zero : t := mk cbId.zero 0 0 0 0.
Definition put (m : t) : list byte :=
  cbId.put (Id m) ++ put32 (Seq m) ++ put32 (Ack m)
    ++ put16 (Len m) ++ put16 (Flags m).
Definition decode (b : list byte) : t :=
  mk (cbId.decode b) (get 4 8 b) (get 4 12 b) (get 2 16 b) (get 2 18 b).
(** [binary.Size] of the struct. *)
Definition size : nat := length (put zero).
End cnMsg.

(** linux/cn_proc.h: struct proc_event.{what,cpu,timestamp_ns} *)
Module procEventHeader.
Record t : Type := mk { What : Z; Cpu : Z; Timestamp : Z }.
Definition zero : t := mk 0 0 0.
Definition put (h : t) : list byte :=
  put32 (What h) ++ put32 (Cpu h) ++ put64 (Timestamp h).
Definition decode (b : list byte) : t :=
  mk (get 4 0 b) (get 4 4 b) (get 8 8 b).
Definition size : nat := length (put zero).
End procEventHeader.

(** linux/cn_proc.h: struct proc_event.fork *)
Module forkProcEvent.
Record t : Type :=
  mk { ParentPid : Z; ParentTgid : Z; ChildPid : Z; ChildTgid : Z }.
Definition zero : t := mk 0 0 0 0.
Definition put (e : t) : list byte :=
  put32 (ParentPid e) ++ put32 (ParentTgid e)
    ++ put32 (ChildPid e) ++ put32 (ChildTgid e).
Definition decode (b : list byte) : t :=
  mk (get 4 0 b) (get 4 4 b) (get 4 8 b) (get 4 12 b).
Definition size : nat := length (put zero).
End forkProcEvent.

(** linux/cn_proc.h: struct proc_event.exec *)
Module execProcEvent.
Record t : Type := mk { ProcessPid : Z; ProcessTgid : Z }.
Definition zero : t := mk 0 0.
Definition put (e : t) : list byte :=
  put32 (ProcessPid e) ++ put32 (ProcessTgid e).
Definition decode (b : list byte) : t := mk (get 4 0 b) (get 4 4 b).
Definition size : nat := length (put zero).
End execProcEvent.

(** linux/cn_proc.h: struct proc_event.exit *)
Module exitProcEvent.
Record t : Type :=
  mk { ProcessPid : Z; ProcessTgid : Z; ExitCode : Z; ExitSignal : Z }.
Definition zero : t := mk 0 0 0 0.
Definition put (e : t) : list byte :=
  put32 (ProcessPid e) ++ put32 (ProcessTgid e)
    ++ put32 (ExitCode e) ++ put32 (ExitSignal e).
Definition decode (b : list byte) : t :=
  mk (get 4 0 b) (get 4 4 b) (get 4 8 b) (get 4 12 b).
Definition size : nat := length (put zero).
End exitProcEvent.

(** [syscall.NlMsghdr] *)
Module NlMsghdr.
Record t : Type := mk { Len : Z; Type_ : Z; Flags : Z; Seq : Z; Pid : Z }.
Definition zero : t := mk 0 0 0 0 0.
Definition put (h : t) : list byte :=
  put32 (Len h) ++ put16 (Type_ h) ++ put16 (Flags h)
    ++ put32 (Seq h) ++ put32 (Pid h).
Definition decode (b : list byte) : t :=
  mk (get 4 0 b) (get 2 4 b) (get 2 6 b) (get 4 8 b) (get 4 12 b).
End NlMsghdr.

(** standard netlink header + connector header *)
Module NetLinkMessage.
Record t : Type := mk { Header : NlMsghdr.t; Data : cnMsg.t }.
Definition zero : t := mk NlMsghdr.zero cnMsg.zero.
Definition put (m : t) : list byte :=
  NlMsghdr.put (Header m) ++ cnMsg.put (Data m).
End NetLinkMessage.

(** ** [encoding/binary] and [bytes.Buffer] *)

Inductive ReadErr : Type := EOF | ErrUnexpectedEOF.

(** [binary.Read(buf, byteOrder, into)] for a struct of [size] bytes read
    from a [bytes.Buffer] holding [buf]: [io.ReadFull] either takes [size]
    bytes, which are decoded into the struct, or drains the shorter buffer
    and fails, leaving the struct as it was. *)
Definition binary_Read {T : Type} (size : nat) (decode : list byte -> T)
    (into : T) (buf : list byte) : T * option ReadErr * list byte :=
  if (size <=? length buf)%nat
  then (decode (firstn size buf), None, skipn size buf)
  else (into, Some (match buf with [] => EOF | _ => ErrUnexpectedEOF end), []).


(** ** [syscall.ParseNetlinkMessage]

    The loop calls this function of Go's [syscall] package
    (netlink_linux.go); it is transcribed here with its helpers
    [netlinkMessageHeaderAndData] and [nlmAlignOf]. *)

(** [syscall.NetlinkMessage]: a header and the payload bytes. *)
Module NetlinkMessage.
Record t : Type := mk { Header : NlMsghdr.t; Data : list byte }.
End NetlinkMessage.

(** Round the length of a netlink message up to align it properly. *)
Definition nlmAlignOf (msglen : Z) : Z :=
  Z.land (msglen + NLMSG_ALIGNTO - 1) (Z.lnot (NLMSG_ALIGNTO - 1)).

Definition len (b : list byte) : Z := Z.of_nat (length b).

(** [netlinkMessageHeaderAndData]: the header overlaid on the first bytes of
    [b] (in host byte order, the little-endian order of [byteOrder]), the
    bytes after it and the aligned length of the message. *)
Definition netlinkMessageHeaderAndData (b : list byte)
  : (NlMsghdr.t * list byte * Z) + Errno :=
  let h := NlMsghdr.decode b in
  let l := nlmAlignOf (NlMsghdr.Len h) in
  if (NlMsghdr.Len h <? NLMSG_HDRLEN) || (len b <? l)
  then inr EINVAL
  else inl (h, skipn (Z.to_nat NLMSG_HDRLEN) b, l).

(** The loop of [ParseNetlinkMessage], [for len(b) >= NLMSG_HDRLEN]; every
    pass drops at least a header from [b], so [length b] passes are enough
    ([ParseNetlinkMessage_unfold] below); [None] stands for fuel that ran
    out and is never returned by [ParseNetlinkMessage]. *)
Fixpoint parse_loop (fuel : nat) (b : list byte)
    (msgs : list NetlinkMessage.t)
  : option (list NetlinkMessage.t * option Errno) :=
  if len b <? NLMSG_HDRLEN then Some (msgs, None)
  else
    match fuel with
    | O => None
    | S fuel' =>
        match netlinkMessageHeaderAndData b with
        | inr err => Some ([], Some err)
        | inl (h, dbuf, dlen) =>
            let m :=
              NetlinkMessage.mk h
                (firstn (Z.to_nat (NlMsghdr.Len h - NLMSG_HDRLEN)) dbuf) in
            parse_loop fuel' (skipn (Z.to_nat dlen) b) (msgs ++ [m])
        end
    end.

Definition ParseNetlinkMessage (b : list byte)
  : list NetlinkMessage.t * option Errno :=
  match parse_loop (length b) b [] with
  | Some r => r
  | None => ([], Some EINVAL)
  end.

(** ** The kernel: descriptors and the connector socket *)

Definition EBADF : Errno := 0x9.

(** The descriptors that are open and the frames sent so far, in order. *)
Record Kernel : Type :=
  mkKernel { open_fds : gset Z; wire : list (Z * list byte) }.

(** What the environment answers to the system calls of one operation. *)
Record Outcomes : Type :=
  mkOutcomes { getpid : Z;
               socket_result : Z + Errno;
               bind_result : option Errno;
               sendto_result : option Errno }.

Definition sys_Socket (r : Z + Errno) (k : Kernel) : Kernel * (Z + Errno) :=
  match r with
  | inl fd => (mkKernel ({[ fd ]} ∪ open_fds k) (wire k), inl fd)
  | inr e => (k, inr e)
  end.

Definition sys_Bind (r : option Errno) (fd : Z) (k : Kernel)
  : Kernel * option Errno :=
  if decide (fd ∈ open_fds k) then (k, r) else (k, Some EBADF).

Definition sys_Sendto (r : option Errno) (fd : Z) (buf : list byte)
    (k : Kernel) : Kernel * option Errno :=
  if decide (fd ∈ open_fds k) then
    match r with
    | None => (mkKernel (open_fds k) (wire k ++ [(fd, buf)]), None)
    | Some e => (k, Some e)
    end
  else (k, Some EBADF).

Definition sys_Close (fd : Z) (k : Kernel) : Kernel * option Errno :=
  if decide (fd ∈ open_fds k)
  then (mkKernel (open_fds k ∖ {[ fd ]}) (wire k), None)
  else (k, Some EBADF).

(** ** The netlink listener *)

Module SockaddrNetlink.
Record t : Type := mk { Family : Z; Groups : Z }.
End SockaddrNetlink.

Module NetLink.
Record t : Type :=
  mk { addr : option SockaddrNetlink.t; (* Netlink socket address *)
       sock : Z;          (* The syscall.Socket() file descriptor *)
       seq : Z }.         (* struct cn_msg.seq *)
Definition zero : t := mk None 0 0.
End NetLink.

(** [binary.Size(op)] for [op uint32]. *)
Definition size_uint32 : nat := length (put32 0).

(** The first part of [send]: the counter is incremented and the frame is
    laid out in the buffer; the result is the listener and [buf.Bytes()]. *)
Definition send_frame (pid : Z) (op : Z) (listener : NetLink.t)
  : NetLink.t * list byte :=
  let listener :=
    NetLink.mk (NetLink.addr listener) (NetLink.sock listener)
               (uint32 (NetLink.seq listener + 1)) in
  let plen := Z.of_nat cnMsg.size + Z.of_nat size_uint32 in
  let Header :=
    NlMsghdr.mk (uint32 (NLMSG_HDRLEN + uint32 plen))
                (uint16 NLMSG_DONE) 0 (NetLink.seq listener) (uint32 pid) in
  let Data :=
    cnMsg.mk (cbId.mk _CN_IDX_PROC _CN_VAL_PROC) 0 0
             (uint16 (Z.of_nat size_uint32)) 0 in
  let pr := NetLinkMessage.mk Header Data in
  (listener, NetLinkMessage.put pr ++ put32 op).

(** Generic method for sending control messages to the connector driver;
    where op is one of PROC_CN_MCAST_{LISTEN,IGNORE} *)
Definition send (o : Outcomes) (op : Z) (listener : NetLink.t) (k : Kernel)
  : NetLink.t * Kernel * option Errno :=
  let '(listener, buf) := send_frame (getpid o) op listener in
  let '(k, err) := sys_Sendto (sendto_result o) (NetLink.sock listener) buf k in
  (listener, k, err).

(** Bind our netlink socket and send a listen control message to the
    connector driver. *)
Definition bind (o : Outcomes) (listener : NetLink.t) (k : Kernel)
  : NetLink.t * Kernel * option Errno :=
  match sys_Socket (socket_result o) k with
  | (k, inr err) => (listener, k, Some err)
  | (k, inl sock) =>
      let listener :=
        NetLink.mk (Some (SockaddrNetlink.mk AF_NETLINK _CN_IDX_PROC)) sock
                   (NetLink.seq listener) in
      match sys_Bind (bind_result o) (NetLink.sock listener) k with
      | (k, Some err) => (listener, k, Some err)
      | (k, None) => send o _PROC_CN_MCAST_LISTEN listener k
      end
  end.

(** Send an ignore control message to the connector driver and close our
    netlink socket. *)
Definition close (o : Outcomes) (listener : NetLink.t) (k : Kernel)
  : NetLink.t * Kernel * option Errno :=
  let '(listener, k, err) := send o _PROC_CN_MCAST_IGNORE listener k in
  let '(k, _) := sys_Close (NetLink.sock listener) k in
  (listener, k, err).

(** Initialize linux implementation of the eventListener interface *)
Definition createListener (o : Outcomes) (k : Kernel)
  : NetLink.t * Kernel * option Errno :=
  let nl := NetLink.zero in
  bind o nl k.

(** ** The capture engine *)

Module ProcEventFork.
Record t : Type :=
  mk { ParentPid : Z;  (* Pid of the process that called fork() *)
       ChildPid : Z }. (* Child process pid created by fork() *)
End ProcEventFork.

Module ProcEventExec.
Record t : Type := mk { Pid : Z }. (* Pid of the process that called exec() *)
End ProcEventExec.

Module ProcEventExit.
Record t : Type := mk { Pid : Z }. (* Pid of the process that called exit() *)
End ProcEventExit.

Record watch : Type :=
  mkWatch { flags : Z }. (* Saved value of Watch() flags param *)

(** The four output channels. *)
Inductive Queue : Type := QFork | QExec | QExit | QError.

Definition Queue_eqb (a b : Queue) : bool :=
  match a, b with
  | QFork, QFork | QExec, QExec | QExit, QExit | QError, QError => true
  | _, _ => false
  end.

(** A value handed to a consumer on one of the channels. *)
Inductive Delivery : Type :=
| DFork (e : ProcEventFork.t)
| DExec (e : ProcEventExec.t)
| DExit (e : ProcEventExit.t)
| DError (e : Errno).

Definition queue_of (d : Delivery) : Queue :=
  match d with
  | DFork _ => QFork
  | DExec _ => QExec
  | DExit _ => QExit
  | DError _ => QError
  end.

(** The engine.  The channels [Fork], [Exec], [Exit] and [Error] are
    unbuffered: a send is a handoff to a consumer, and the loop is their
    only sender, so the channels are the sequence of handoffs in the order
    of the send statements ([handoffs]) and the channels closed so far
    ([closed]).  [done] is the buffered channel of capacity one.  The
    fields [listeners], [watchesMutex] and [closedMutex] are never read. *)
Record PsEvent : Type :=
  mkPsEvent
    { listener : NetLink.t;   (* OS specifics (kqueue or netlink) *)
      watches : gmap Z watch; (* Map of watched process ids *)
      handoffs : list Delivery;
      closed : list Queue;
      done : list bool;       (* Used to stop the readEvents() goroutine *)
      isClosed : bool }.      (* Set to true when Close() is first called *)

(** The engine with another table of watched process ids. *)
Definition set_watches (w : gmap Z watch) (p : PsEvent) : PsEvent :=
  mkPsEvent (listener p) w (handoffs p) (closed p) (done p) (isClosed p).

(** The events handed over so far, on the three event channels together. *)
Definition is_event (d : Delivery) : bool :=
  match d with
  | DError _ => false
  | _ => true
  end.

Definition events (p : PsEvent) : list Delivery :=
  List.filter is_event (handoffs p).

(** What a consumer of one channel has received. *)
Definition Fork (p : PsEvent) : list ProcEventFork.t :=
  flat_map (fun d => match d with DFork e => [e] | _ => [] end) (handoffs p).
Definition Exec (p : PsEvent) : list ProcEventExec.t :=
  flat_map (fun d => match d with DExec e => [e] | _ => [] end) (handoffs p).
Definition Exit (p : PsEvent) : list ProcEventExit.t :=
  flat_map (fun d => match d with DExit e => [e] | _ => [] end) (handoffs p).
Definition Error (p : PsEvent) : list Errno :=
  flat_map (fun d => match d with DError e => [e] | _ => [] end) (handoffs p).

Definition is_closed (q : Queue) (p : PsEvent) : bool :=
  existsb (Queue_eqb q) (closed p).

(** A goroutine either goes on with a value or panics. *)
Inductive Outcome (A : Type) : Type :=
| Ok (a : A)
| Panic.
Arguments Ok {A} a.
Arguments Panic {A}.

Definition and_then {A B : Type} (m : Outcome A) (f : A -> Outcome B)
  : Outcome B :=
  match m with
  | Ok a => f a
  | Panic => Panic
  end.

Notation "x <- m ;; k" := (and_then m (fun x => k))
  (at level 100, m at next level, right associativity).

(** The engine after [d] has been handed to a consumer. *)
Definition handoff (d : Delivery) (p : PsEvent) : PsEvent :=
  mkPsEvent (listener p) (watches p) (handoffs p ++ [d]) (closed p)
            (done p) (isClosed p).

(** [ch <- v]: a send on a closed channel panics. *)
Definition chan_send (d : Delivery) (p : PsEvent) : Outcome PsEvent :=
  if is_closed (queue_of d) p then Panic else Ok (handoff d p).

(** [close(ch)]: closing a closed channel panics. *)
Definition chan_close (q : Queue) (p : PsEvent) : Outcome PsEvent :=
  if is_closed q p then Panic
  else Ok (mkPsEvent (listener p) (watches p) (handoffs p) (closed p ++ [q])
                     (done p) (isClosed p)).

(** Close event channels when done message is received *)
Definition finish (p : PsEvent) : Outcome PsEvent :=
  p <- chan_close QFork p ;;
  p <- chan_close QExec p ;;
  p <- chan_close QExit p ;;
  chan_close QError p.

(** The [switch hdr.What] of [handleEvent]: [What] is the kind read from
    the event header and [buf] the bytes left in the buffer after it. *)
Definition switch_What (What : Z) (buf : list byte) (p : PsEvent)
  : Outcome PsEvent :=
  if What =? PROC_EVENT_FORK then
    let '(event, _, _) :=
      binary_Read forkProcEvent.size forkProcEvent.decode
                  forkProcEvent.zero buf in
    let ppid := forkProcEvent.ParentTgid event in
    let pid := forkProcEvent.ChildTgid event in
    chan_send (DFork (ProcEventFork.mk ppid pid)) p
  else if What =? PROC_EVENT_EXEC then
    let '(event, _, _) :=
      binary_Read execProcEvent.size execProcEvent.decode
                  execProcEvent.zero buf in
    let pid := execProcEvent.ProcessTgid event in
    chan_send (DExec (ProcEventExec.mk pid)) p
  else if What =? PROC_EVENT_EXIT then
    let '(event, _, _) :=
      binary_Read exitProcEvent.size exitProcEvent.decode
                  exitProcEvent.zero buf in
    let pid := exitProcEvent.ProcessTgid event in
    chan_send (DExit (ProcEventExit.mk pid)) p
  else Ok p.

(** Dispatch events from the netlink socket to the Event channels. *)
Definition handleEvent (data : list byte) (p : PsEvent) : Outcome PsEvent :=
  let buf := data in
  let '(msg, _, buf) :=
    binary_Read cnMsg.size cnMsg.decode cnMsg.zero buf in
  let '(hdr, _, buf) :=
    binary_Read procEventHeader.size procEventHeader.decode
                procEventHeader.zero buf in
  switch_What (procEventHeader.What hdr) buf p.

(** Internal helper to check if there is a message on the "done" channel:
    a non-blocking receive; when a value is there, [finish] runs and the
    value received is returned. *)
Definition isDone (p : PsEvent) : Outcome (bool * PsEvent) :=
  match done p with
  | v :: rest =>
      let p := mkPsEvent (listener p) (watches p) (handoffs p) (closed p)
                         rest (isClosed p) in
      p <- finish p ;;
      Ok (v, p)
  | [] => Ok (false, p)
  end.

(** [for _, m := range msgs]: the messages of one frame. *)
Fixpoint dispatch (msgs : list NetlinkMessage.t) (p : PsEvent)
  : Outcome PsEvent :=
  match msgs with
  | [] => Ok p
  | m :: rest =>
      if NlMsghdr.Type_ (NetlinkMessage.Header m) =? NLMSG_DONE
      then p <- handleEvent (NetlinkMessage.Data m) p ;; dispatch rest p
      else dispatch rest p
  end.

(** What [syscall.Recvfrom] gives the loop: an error, or the [nr] bytes
    [buf[:nr]] of one datagram. *)
Inductive Recv : Type :=
| RecvErr (err : Errno)
| RecvOk (frame : list byte).

(** One pass of the [for] loop of [readEvents]. *)
Inductive Pass : Type :=
| Continue (p : PsEvent)
| Return (p : PsEvent)
| Crash.

Definition continue (m : Outcome PsEvent) : Pass :=
  match m with
  | Ok p => Continue p
  | Panic => Crash
  end.

(** The part of a pass after [Recvfrom] has returned [r]. *)
Definition received (r : Recv) (p : PsEvent) : Pass :=
  match r with
  | RecvErr err => continue (chan_send (DError err) p)
  | RecvOk frame =>
      if len frame <? NLMSG_HDRLEN
      then continue (chan_send (DError EINVAL) p)
      else
        let '(msgs, _) := ParseNetlinkMessage frame in
        continue (dispatch msgs p)
  end.

Definition pass (r : Recv) (p : PsEvent) : Pass :=
  match isDone p with
  | Panic => Crash
  | Ok (true, p) => Return p
  | Ok (false, p) => received r p
  end.

(** How a run of the loop over finitely many receives ends: it has
    returned, it waits in [Recvfrom] for the next datagram, or it has
    panicked. *)
Inductive LoopEnd : Type :=
| Returned (p : PsEvent)
| Blocked (p : PsEvent)
| Panicked.

(** Read events from the netlink socket; [inputs] are the results of the
    successive calls of [Recvfrom]. *)
Fixpoint readEvents (inputs : list Recv) (p : PsEvent) : LoopEnd :=
  match inputs with
  | [] =>
      match isDone p with
      | Panic => Panicked
      | Ok (true, p) => Returned p
      | Ok (false, p) => Blocked p
      end
  | r :: rest =>
      match pass r p with
      | Continue p => readEvents rest p
      | Return p => Returned p
      | Crash => Panicked
      end
  end.

(** Initialize event listener and channels; the goroutine started by
    [go w.readEvents()] is [readEvents] on the engine returned. *)
Definition Listen (o : Outcomes) (k : Kernel)
  : option PsEvent * option Errno * Kernel :=
  let '(listener, k, err) := createListener o k in
  match err with
  | Some err => (None, Some err, k)
  | None =>
      let w := mkPsEvent listener ∅ [] [] [] false in
      (Some w, None, k)
  end.

(** Closes the OS specific event listener, *)
Definition Close (o : Outcomes) (p : PsEvent) (k : Kernel)
  : PsEvent * Kernel * option Errno :=
  let '(l, k, err) := close o (listener p) k in
  (mkPsEvent l (watches p) (handoffs p) (closed p) (done p) (isClosed p),
   k, err).

(** ** The two goroutines together *)

(** The caller and the loop interleave at the granularity of a pass of
    the loop: the loop receives a datagram, or the caller calls [Close]. *)
Inductive Action : Type :=
| ARecv (r : Recv)
| AClose (o : Outcomes).

Inductive LoopStatus : Type := Running | Exited | Crashed.

Record System : Type :=
  mkSystem { engine : PsEvent; kernel : Kernel; loop : LoopStatus }.

Definition act (s : System) (a : Action) : System :=
  match a with
  | ARecv r =>
      match loop s with
      | Running =>
          match pass r (engine s) with
          | Continue p => mkSystem p (kernel s) Running
          | Return p => mkSystem p (kernel s) Exited
          | Crash => mkSystem (engine s) (kernel s) Crashed
          end
      | _ => s
      end
  | AClose o =>
      let '(p, k, _) := Close o (engine s) (kernel s) in
      mkSystem p k (loop s)
  end.

Definition run (acts : list Action) (s : System) : System :=
  fold_left act acts s.

(** ** Well-formed events on the wire *)

(** The body of a process event, by kind. *)
Inductive Body : Type :=
| BFork (e : forkProcEvent.t)
| BExec (e : execProcEvent.t)
| BExit (e : exitProcEvent.t).

Definition what_of (b : Body) : Z :=
  match b with
  | BFork _ => PROC_EVENT_FORK
  | BExec _ => PROC_EVENT_EXEC
  | BExit _ => PROC_EVENT_EXIT
  end.

Definition put_body (b : Body) : list byte :=
  match b with
  | BFork e => forkProcEvent.put e
  | BExec e => execProcEvent.put e
  | BExit e => exitProcEvent.put e
  end.

Definition is_uint32 (x : Z) : bool := (0 <=? x) && (x <? 2 ^ 32).

(** The fields of a body are [uint32]. *)
Definition wf_body (b : Body) : bool :=
  match b with
  | BFork e =>
      is_uint32 (forkProcEvent.ParentPid e)
      && is_uint32 (forkProcEvent.ParentTgid e)
      && is_uint32 (forkProcEvent.ChildPid e)
      && is_uint32 (forkProcEvent.ChildTgid e)
  | BExec e =>
      is_uint32 (execProcEvent.ProcessPid e)
      && is_uint32 (execProcEvent.ProcessTgid e)
  | BExit e =>
      is_uint32 (exitProcEvent.ProcessPid e)
      && is_uint32 (exitProcEvent.ProcessTgid e)
      && is_uint32 (exitProcEvent.ExitCode e)
      && is_uint32 (exitProcEvent.ExitSignal e)
  end.

(** The event a consumer is to see for a body: the thread-group ids. *)
Definition delivery_of (b : Body) : Delivery :=
  match b with
  | BFork e =>
      DFork (ProcEventFork.mk (forkProcEvent.ParentTgid e)
                              (forkProcEvent.ChildTgid e))
  | BExec e => DExec (ProcEventExec.mk (execProcEvent.ProcessTgid e))
  | BExit e => DExit (ProcEventExit.mk (exitProcEvent.ProcessTgid e))
  end.

(** One process event as the kernel sends it: the fields of the envelope
    that the sender chooses, the connector header, the cpu and timestamp of
    the event header, and the body. *)
Record WireEvent : Type :=
  mkWireEvent { nl_flags : Z; nl_seq : Z; nl_pid : Z;
                cn : cnMsg.t;
                cpu : Z; timestamp : Z;
                body : Body }.

(** The payload of the envelope: connector header, event header, body. *)
Definition payload_with (c : cnMsg.t) (h : procEventHeader.t)
    (rest : list byte) : list byte :=
  cnMsg.put c ++ procEventHeader.put h ++ rest.

Definition payload (e : WireEvent) : list byte :=
  payload_with (cn e)
    (procEventHeader.mk (what_of (body e)) (cpu e) (timestamp e))
    (put_body (body e)).

(** An envelope of type [ty] around [data], with its total length. *)
Definition envelope_with (ty flags sq pid : Z) (data : list byte)
  : list byte :=
  NlMsghdr.put (NlMsghdr.mk (NLMSG_HDRLEN + len data) ty flags sq pid)
    ++ data.

Definition envelope (e : WireEvent) : list byte :=
  envelope_with NLMSG_DONE (nl_flags e) (nl_seq e) (nl_pid e) (payload e).

(** A frame of consecutively encoded events. *)
Definition frame_of (evs : list WireEvent) : list byte :=
  flat_map envelope evs.

(** The engine after the events of [ds] have been handed over in order. *)
Definition handoff_all (ds : list Delivery) (p : PsEvent) : PsEvent :=
  fold_left (fun p d => handoff d p) ds p.

(** ** Reading a control frame back *)

(** The layers of a control frame, read the way the loop reads a frame:
    the envelope with [ParseNetlinkMessage], the connector header with
    [binary.Read], and the operation code that follows it. *)
Definition decode_control (frame : list byte)
  : option (NlMsghdr.t * cnMsg.t * Z) :=
  match ParseNetlinkMessage frame with
  | ([m], None) =>
      let '(msg, err, buf) :=
        binary_Read cnMsg.size cnMsg.decode cnMsg.zero
                    (NetlinkMessage.Data m) in
      let '(op, err', _) := binary_Read size_uint32 (get 4 0) 0 buf in
      match err, err' with
      | None, None => Some (NetlinkMessage.Header m, msg, op)
      | _, _ => None
      end
  | _ => None
  end.

(** ** Auxiliary definitions for the statements *)

(** The event kinds that [handleEvent] knows. *)
Definition known_kind (What : Z) : bool :=
  (What =? PROC_EVENT_FORK) || (What =? PROC_EVENT_EXEC)
  || (What =? PROC_EVENT_EXIT).

(** The message that [ParseNetlinkMessage] extracts for one event. *)
Definition msg_of (e : WireEvent) : NetlinkMessage.t :=
  NetlinkMessage.mk
    (NlMsghdr.mk (NLMSG_HDRLEN + len (payload e)) (uint16 NLMSG_DONE)
       (uint16 (nl_flags e)) (uint32 (nl_seq e)) (uint32 (nl_pid e)))
    (payload e).

(** The loop is running, no channel is closed and nothing is in [done]. *)
Definition never_stopped (s : System) : Prop :=
  loop s = Running /\ closed (engine s) = [] /\ done (engine s) = [].

(** A message put in front of the result of parsing the rest of a frame:
    an error further on discards it. *)
Definition cons_msg (m : NetlinkMessage.t)
    (r : list NetlinkMessage.t * option Errno)
  : list NetlinkMessage.t * option Errno :=
  match r with
  | (ms, None) => (m :: ms, None)
  | (ms, Some e) => (ms, Some e)
  end.

(** The address that [bind] gives the socket. *)
Definition netlink_addr : SockaddrNetlink.t :=
  SockaddrNetlink.mk AF_NETLINK _CN_IDX_PROC.

(** A body of the same kind with every field zero: the struct that
    [handleEvent] starts from before [binary.Read] fills it. *)
Definition zeroed (b : Body) : Body :=
  match b with
  | BFork _ => BFork forkProcEvent.zero
  | BExec _ => BExec execProcEvent.zero
  | BExit _ => BExit exitProcEvent.zero
  end.

(** The number of bytes that the switch of [handleEvent] reads for a
    kind. *)
Definition body_size (What : Z) : nat :=
  if What =? PROC_EVENT_FORK then forkProcEvent.size
  else if What =? PROC_EVENT_EXEC then execProcEvent.size
  else if What =? PROC_EVENT_EXIT then exitProcEvent.size
  else 0%nat.

(** The process ids that a handoff shows to its consumer. *)
Definition pids_of (d : Delivery) : list Z :=
  match d with
  | DFork e => [ProcEventFork.ParentPid e; ProcEventFork.ChildPid e]
  | DExec e => [ProcEventExec.Pid e]
  | DExit e => [ProcEventExit.Pid e]
  | DError _ => []
  end.

(** An event whose process ids are [uint32] values. *)
Definition uint32_pids (d : Delivery) : Prop :=
  is_event d = true /\ Forall (fun x => 0 <= x < 2 ^ 32) (pids_of d).

(** [p'] is [p] after the handoffs [more], with nothing else changed. *)
Definition extends (p p' : PsEvent) (more : list Delivery) : Prop :=
  handoffs p' = handoffs p ++ more
  /\ closed p' = closed p /\ done p' = done p
  /\ watches p' = watches p /\ listener p' = listener p
  /\ isClosed p' = isClosed p.

(** ** Sample values *)

(** An engine as [Listen] builds it, before any socket is there. *)
Definition p0 : PsEvent := mkPsEvent NetLink.zero ∅ [] [] [] false.

(** A kernel with no descriptor open. *)
Definition k0 : Kernel := mkKernel ∅ [].

(** Every system call succeeds and [socket] returns descriptor 3. *)
Definition listen_ok : Outcomes := mkOutcomes 1000 (inl 3) None None.

(** [socket] returns descriptor 3 and [bind] fails with EACCES. *)
Definition bind_fails : Outcomes := mkOutcomes 1000 (inl 3) (Some 13) None.

(** The engine and the kernel after [Listen] under [listen_ok]. *)
Definition w0 : PsEvent :=
  mkPsEvent
    (NetLink.mk (Some (SockaddrNetlink.mk AF_NETLINK _CN_IDX_PROC)) 3 1)
    ∅ [] [] [] false.

Definition k1 : Kernel :=
  mkKernel ({[ 3 ]} ∪ ∅)
    [(3, snd (send_frame 1000 _PROC_CN_MCAST_LISTEN
                (NetLink.mk (Some (SockaddrNetlink.mk AF_NETLINK _CN_IDX_PROC))
                            3 0)))].

(** A fork of thread 99 of process 100 into thread 102 of process 101, an
    exec and an exit of thread 56 of process 55. *)
Definition fork_100_101 : WireEvent :=
  mkWireEvent 0 7 0 (cnMsg.mk (cbId.mk 1 1) 5 0 40 0) 2 12345
    (BFork (forkProcEvent.mk 99 100 102 101)).

Definition exec_55 : WireEvent :=
  mkWireEvent 0 8 0 (cnMsg.mk (cbId.mk 1 1) 6 0 32 0) 2 12346
    (BExec (execProcEvent.mk 56 55)).

Definition exit_55 : WireEvent :=
  mkWireEvent 0 9 0 (cnMsg.mk (cbId.mk 1 1) 7 0 40 0) 2 12347
    (BExit (exitProcEvent.mk 56 55 0 17)).

(** [socket] and [bind] succeed and every [sendto] fails with ENOBUFS. *)
Definition send_fails : Outcomes := mkOutcomes 1000 (inl 3) None (Some 105).

(** An engine with a value waiting in [done]. *)
Definition stopping (v : bool) : PsEvent :=
  mkPsEvent (listener w0) ∅ [DExec (ProcEventExec.mk 55)] [] [v] false.

(** * Properties *)

(** ** Integers and structs on the wire *)

Lemma len_app (a b : list byte) : len (a ++ b) = len a + len b.
Proof. unfold len. rewrite length_app. lia. Qed.

Lemma len_nonneg (b : list byte) : 0 <= len b.
Proof. unfold len. lia. Qed.

Lemma uint32_small x : is_uint32 x = true -> uint32 x = x.
Proof.
  unfold is_uint32, uint32. intros H.
  apply andb_true_iff in H as [H1 H2].
  apply Z.leb_le in H1. apply Z.ltb_lt in H2. apply Z.mod_small. lia.
Qed.

Lemma uint32_idem x : uint32 (uint32 x) = uint32 x.
Proof. unfold uint32. apply Z.mod_mod. lia. Qed.

Lemma get_here (n : nat) (x : Z) (b : list byte) :
  get n 0 (le_split n x ++ b) = x mod 2 ^ (Z.of_nat n * 8).
Proof.
  unfold get. rewrite skipn_O, firstn_app, length_le_split, Nat.sub_diag.
  rewrite firstn_O, app_nil_r, firstn_all2 by (rewrite length_le_split; lia).
  apply le_combine_split.
Qed.

Lemma get_skip (n k off : nat) (x : Z) (b : list byte) :
  (k <= off)%nat -> get n off (le_split k x ++ b) = get n (off - k) b.
Proof.
  intros H. unfold get. rewrite skipn_app, length_le_split.
  rewrite skipn_all2 by (rewrite length_le_split; lia). reflexivity.
Qed.

Lemma get_skip2 n off x b :
  get n (S (S off)) (le_split 2 x ++ b) = get n off b.
Proof. rewrite (get_skip n 2) by lia. f_equal; lia. Qed.

Lemma get_skip4 n off x b :
  get n (S (S (S (S off)))) (le_split 4 x ++ b) = get n off b.
Proof. rewrite (get_skip n 4) by lia. f_equal; lia. Qed.

Lemma get_skip8 n off x b :
  get n (S (S (S (S (S (S (S (S off)))))))) (le_split 8 x ++ b) = get n off b.
Proof. rewrite (get_skip n 8) by lia. f_equal; lia. Qed.

Lemma get_u16 x b : get 2 0 (le_split 2 x ++ b) = uint16 x.
Proof. apply get_here. Qed.

Lemma get_u32 x b : get 4 0 (le_split 4 x ++ b) = uint32 x.
Proof. apply get_here. Qed.

Lemma get_u64 x b : get 8 0 (le_split 8 x ++ b) = x mod 2 ^ 64.
Proof. apply get_here. Qed.

(** Reads every field of a struct that was just written. *)
Ltac fields :=
  cbv [cbId.put cnMsg.put procEventHeader.put forkProcEvent.put
       execProcEvent.put exitProcEvent.put NlMsghdr.put NetLinkMessage.put
       cbId.decode cnMsg.decode procEventHeader.decode forkProcEvent.decode
       execProcEvent.decode exitProcEvent.decode NlMsghdr.decode
       put16 put32 put64];
  rewrite <- ?app_assoc;
  repeat (rewrite get_skip2 || rewrite get_skip4 || rewrite get_skip8);
  rewrite ?get_u16, ?get_u32, ?get_u64.

Lemma NlMsghdr_decode_put h rest :
  NlMsghdr.decode (NlMsghdr.put h ++ rest) =
  NlMsghdr.mk (uint32 (NlMsghdr.Len h)) (uint16 (NlMsghdr.Type_ h))
    (uint16 (NlMsghdr.Flags h)) (uint32 (NlMsghdr.Seq h))
    (uint32 (NlMsghdr.Pid h)).
Proof. fields. reflexivity. Qed.

Lemma cnMsg_decode_put m rest :
  cnMsg.decode (cnMsg.put m ++ rest) =
  cnMsg.mk
    (cbId.mk (uint32 (cbId.Idx (cnMsg.Id m))) (uint32 (cbId.Val (cnMsg.Id m))))
    (uint32 (cnMsg.Seq m)) (uint32 (cnMsg.Ack m)) (uint16 (cnMsg.Len m))
    (uint16 (cnMsg.Flags m)).
Proof. fields. reflexivity. Qed.

Lemma procEventHeader_decode_put h rest :
  procEventHeader.decode (procEventHeader.put h ++ rest) =
  procEventHeader.mk (uint32 (procEventHeader.What h))
    (uint32 (procEventHeader.Cpu h)) (procEventHeader.Timestamp h mod 2 ^ 64).
Proof. fields. reflexivity. Qed.

Lemma forkProcEvent_decode_put e rest :
  forkProcEvent.decode (forkProcEvent.put e ++ rest) =
  forkProcEvent.mk (uint32 (forkProcEvent.ParentPid e))
    (uint32 (forkProcEvent.ParentTgid e)) (uint32 (forkProcEvent.ChildPid e))
    (uint32 (forkProcEvent.ChildTgid e)).
Proof. fields. reflexivity. Qed.

Lemma execProcEvent_decode_put e rest :
  execProcEvent.decode (execProcEvent.put e ++ rest) =
  execProcEvent.mk (uint32 (execProcEvent.ProcessPid e))
    (uint32 (execProcEvent.ProcessTgid e)).
Proof. fields. reflexivity. Qed.

Lemma exitProcEvent_decode_put e rest :
  exitProcEvent.decode (exitProcEvent.put e ++ rest) =
  exitProcEvent.mk (uint32 (exitProcEvent.ProcessPid e))
    (uint32 (exitProcEvent.ProcessTgid e)) (uint32 (exitProcEvent.ExitCode e))
    (uint32 (exitProcEvent.ExitSignal e)).
Proof. fields. reflexivity. Qed.

(** The sizes of the structs do not depend on their contents. *)
Lemma nl_size h : length (NlMsghdr.put h) = 16%nat.
Proof. reflexivity. Qed.

Lemma nl_len h : len (NlMsghdr.put h) = 16.
Proof. reflexivity. Qed.

Lemma cn_len c : len (cnMsg.put c) = 20.
Proof. reflexivity. Qed.

Lemma hdr_len h : len (procEventHeader.put h) = 16.
Proof. reflexivity. Qed.

Lemma body_len b :
  len (put_body b) = match b with BExec _ => 8 | _ => 16 end.
Proof. destruct b; reflexivity. Qed.

Lemma payload_len e :
  len (payload e) = match body e with BExec _ => 44 | _ => 52 end.
Proof.
  unfold payload, payload_with. rewrite !len_app, body_len, cn_len, hdr_len.
  destruct (body e); reflexivity.
Qed.

Lemma control_len c op : len (cnMsg.put c ++ put32 op) = 24.
Proof. reflexivity. Qed.

(** ** [binary.Read] *)

Lemma binary_Read_app {T} size (decode : list byte -> T) into
    (a b : list byte) :
  length a = size ->
  binary_Read size decode into (a ++ b) = (decode a, None, b).
Proof.
  intros <-. unfold binary_Read.
  rewrite length_app.
  destruct (Nat.leb_spec (length a) (length a + length b)) as [_|H]; [|lia].
  rewrite firstn_app, Nat.sub_diag, firstn_O, app_nil_r, firstn_all.
  rewrite skipn_app, Nat.sub_diag, skipn_all. reflexivity.
Qed.

Lemma binary_Read_exact {T} size (decode : list byte -> T) into
    (a : list byte) :
  length a = size -> binary_Read size decode into a = (decode a, None, []).
Proof.
  intros H. rewrite <- (app_nil_r a) at 1. apply binary_Read_app, H.
Qed.

Lemma binary_Read_short {T} size (decode : list byte -> T) into
    (b : list byte) :
  (length b < size)%nat ->
  exists err, binary_Read size decode into b = (into, Some err, []).
Proof.
  intros H. unfold binary_Read.
  destruct (Nat.leb_spec size (length b)) as [H'|_]; [lia|].
  eauto.
Qed.

(** ** [ParseNetlinkMessage] *)

Lemma nlmAlignOf_eq n : nlmAlignOf n = 4 * ((n + 3) / 4).
Proof.
  unfold nlmAlignOf, NLMSG_ALIGNTO.
  replace (n + 4 - 1) with (n + 3) by lia.
  rewrite <- Z.ldiff_land.
  change (4 - 1) with (Z.ones 2).
  rewrite Z.ldiff_ones_r by lia.
  rewrite Z.shiftr_div_pow2, Z.shiftl_mul_pow2 by lia.
  change (2 ^ 2) with 4. lia.
Qed.

Lemma nlmAlignOf_bounds n : n <= nlmAlignOf n < n + 4.
Proof. rewrite nlmAlignOf_eq. Z.div_mod_to_equations. lia. Qed.

Lemma nlmAlignOf_aligned n : n mod 4 = 0 -> nlmAlignOf n = n.
Proof. rewrite nlmAlignOf_eq. Z.div_mod_to_equations. lia. Qed.

(** A header that is accepted spans at least itself and at most [b]. *)
Lemma header_ok b h dbuf dlen :
  netlinkMessageHeaderAndData b = inl (h, dbuf, dlen) ->
  NLMSG_HDRLEN <= dlen <= len b.
Proof.
  unfold netlinkMessageHeaderAndData.
  destruct (_ || _) eqn:E; [discriminate|].
  intros [= <- <- <-].
  apply orb_false_elim in E as [E1 E2].
  apply Z.ltb_ge in E1, E2.
  pose proof (nlmAlignOf_bounds (NlMsghdr.Len (NlMsghdr.decode b))).
  cbn [NlMsghdr.Len NlMsghdr.decode] in *. lia.
Qed.

Lemma header_shrinks b h dbuf dlen :
  netlinkMessageHeaderAndData b = inl (h, dbuf, dlen) ->
  (length (skipn (Z.to_nat dlen) b) < length b)%nat.
Proof.
  intros H. apply header_ok in H. unfold len, NLMSG_HDRLEN in H.
  rewrite length_skipn. lia.
Qed.

(** Fuel beyond the length of the input changes nothing. *)
Lemma parse_loop_fuel fuel1 : forall fuel2 b msgs,
  (length b <= fuel1)%nat -> (length b <= fuel2)%nat ->
  parse_loop fuel1 b msgs = parse_loop fuel2 b msgs.
Proof.
  induction fuel1 as [|fuel1 IH]; intros fuel2 b msgs H1 H2.
  - destruct b; [|simpl in H1; lia]. destruct fuel2; reflexivity.
  - destruct fuel2 as [|fuel2].
    + destruct b; [|simpl in H2; lia]. reflexivity.
    + simpl. destruct (len b <? NLMSG_HDRLEN); [reflexivity|].
      destruct (netlinkMessageHeaderAndData b) as [[[h dbuf] dlen]|err] eqn:E;
        [|reflexivity].
      apply header_shrinks in E. apply IH; lia.
Qed.

(** The loop ends within [length b] passes: the fuel never runs out. *)
Lemma parse_loop_total fuel : forall b msgs,
  (length b <= fuel)%nat -> parse_loop fuel b msgs <> None.
Proof.
  induction fuel as [|fuel IH]; intros b msgs H.
  - destruct b; [|simpl in H; lia]. discriminate.
  - simpl. destruct (len b <? NLMSG_HDRLEN); [discriminate|].
    destruct (netlinkMessageHeaderAndData b) as [[[h dbuf] dlen]|err] eqn:E;
      [|discriminate].
    apply header_shrinks in E. apply IH; lia.
Qed.

Lemma parse_loop_acc fuel : forall b msgs,
  parse_loop fuel b msgs =
  match parse_loop fuel b [] with
  | Some (ms, None) => Some (msgs ++ ms, None)
  | Some (ms, Some e) => Some (ms, Some e)
  | None => None
  end.
Proof.
  induction fuel as [|fuel IH]; intros b msgs; simpl.
  - destruct (len b <? NLMSG_HDRLEN); [rewrite app_nil_r|]; reflexivity.
  - destruct (len b <? NLMSG_HDRLEN); [rewrite app_nil_r; reflexivity|].
    destruct (netlinkMessageHeaderAndData b) as [[[h dbuf] dlen]|err];
      [|reflexivity].
    rewrite IH. rewrite (IH _ [_]).
    destruct (parse_loop fuel _ []) as [[ms [e|]]|]; try reflexivity.
    rewrite <- app_assoc. reflexivity.
Qed.

(** The loop, one pass at a time. *)
Lemma ParseNetlinkMessage_unfold b :
  ParseNetlinkMessage b =
  if len b <? NLMSG_HDRLEN then ([], None)
  else
    match netlinkMessageHeaderAndData b with
    | inr err => ([], Some err)
    | inl (h, dbuf, dlen) =>
        cons_msg
          (NetlinkMessage.mk h
             (firstn (Z.to_nat (NlMsghdr.Len h - NLMSG_HDRLEN)) dbuf))
          (ParseNetlinkMessage (skipn (Z.to_nat dlen) b))
    end.
Proof.
  unfold ParseNetlinkMessage.
  destruct (length b) as [|n] eqn:L.
  - simpl. unfold len. rewrite L. reflexivity.
  - simpl. destruct (len b <? NLMSG_HDRLEN); [reflexivity|].
    destruct (netlinkMessageHeaderAndData b) as [[[h dbuf] dlen]|err] eqn:E;
      [|reflexivity].
    apply header_shrinks in E.
    rewrite parse_loop_acc.
    rewrite (parse_loop_fuel n (length (skipn (Z.to_nat dlen) b))) by lia.
    pose proof (parse_loop_total _ (skipn (Z.to_nat dlen) b) [] (le_n _)) as T.
    destruct (parse_loop _ _ []) as [[ms [e|]]|]; [reflexivity..|].
    congruence.
Qed.

(** [ParseNetlinkMessage] returns what its loop computes. *)
Lemma ParseNetlinkMessage_returns b :
  parse_loop (length b) b [] = Some (ParseNetlinkMessage b).
Proof.
  unfold ParseNetlinkMessage.
  pose proof (parse_loop_total (length b) b [] (le_n _)) as T.
  destruct (parse_loop (length b) b []); congruence.
Qed.

Lemma parse_nil : ParseNetlinkMessage [] = ([], None).
Proof. reflexivity. Qed.

Section Envelope.

Variables ty flags sq pid : Z.
Variables data rest : list byte.
Hypothesis aligned : len data mod 4 = 0.
Hypothesis fits : NLMSG_HDRLEN + len data < 2 ^ 32.

Lemma envelope_len h :
  len (NlMsghdr.put h ++ data ++ rest) = 16 + len data + len rest.
Proof. rewrite !len_app, nl_len. lia. Qed.

Lemma envelope_Len : uint32 (NLMSG_HDRLEN + len data) = NLMSG_HDRLEN + len data.
Proof.
  pose proof (len_nonneg data).
  unfold uint32. apply Z.mod_small. unfold NLMSG_HDRLEN in *. lia.
Qed.

Lemma envelope_aligned :
  nlmAlignOf (NLMSG_HDRLEN + len data) = NLMSG_HDRLEN + len data.
Proof.
  apply nlmAlignOf_aligned. unfold NLMSG_HDRLEN. Z.div_mod_to_equations. lia.
Qed.

(** An envelope followed by [rest] parses as its message followed by the
    messages of [rest]. *)
Lemma parse_envelope :
  ParseNetlinkMessage (envelope_with ty flags sq pid data ++ rest) =
  cons_msg
    (NetlinkMessage.mk
       (NlMsghdr.mk (NLMSG_HDRLEN + len data) (uint16 ty) (uint16 flags)
                    (uint32 sq) (uint32 pid)) data)
    (ParseNetlinkMessage rest).
Proof.
  pose proof (len_nonneg data) as Hd. pose proof (len_nonneg rest) as Hr.
  rewrite ParseNetlinkMessage_unfold.
  unfold envelope_with. rewrite <- app_assoc, envelope_len.
  destruct (Z.ltb_spec (16 + len data + len rest) NLMSG_HDRLEN) as [Hs|_];
    [unfold NLMSG_HDRLEN in Hs; lia|].
  unfold netlinkMessageHeaderAndData.
  rewrite NlMsghdr_decode_put, envelope_len.
  cbn [NlMsghdr.Len NlMsghdr.Type_ NlMsghdr.Flags NlMsghdr.Seq NlMsghdr.Pid].
  rewrite envelope_Len, envelope_aligned.
  destruct (Z.ltb_spec (NLMSG_HDRLEN + len data) NLMSG_HDRLEN) as [Hs1|_];
    [lia|].
  destruct (Z.ltb_spec (16 + len data + len rest) (NLMSG_HDRLEN + len data))
    as [Hs2|_]; [unfold NLMSG_HDRLEN in Hs2; lia|].
  cbn [orb NlMsghdr.Len].
  replace (NLMSG_HDRLEN + len data - NLMSG_HDRLEN) with (len data) by lia.
  rewrite skipn_app, skipn_all2 by (rewrite nl_size; cbv; lia).
  rewrite nl_size. change (Z.to_nat NLMSG_HDRLEN - 16)%nat with 0%nat.
  cbn [app]. rewrite skipn_O.
  unfold len at 2. rewrite Nat2Z.id.
  rewrite firstn_app, Nat.sub_diag, firstn_O, app_nil_r, firstn_all.
  replace (Z.to_nat (NLMSG_HDRLEN + len data)) with (16 + length data)%nat
    by (unfold len, NLMSG_HDRLEN; lia).
  rewrite skipn_app, nl_size, skipn_all2 by (rewrite nl_size; lia).
  replace (16 + length data - 16)%nat with (length data) by lia.
  cbn [app]. rewrite skipn_app, Nat.sub_diag, skipn_all. reflexivity.
Qed.

End Envelope.

(** ** Channels *)

Lemma is_closed_open q p : closed p = [] -> is_closed q p = false.
Proof. unfold is_closed. intros ->. reflexivity. Qed.

Lemma chan_send_open d p : closed p = [] -> chan_send d p = Ok (handoff d p).
Proof.
  intros H. unfold chan_send. rewrite is_closed_open by exact H. reflexivity.
Qed.

Lemma events_handoff_error e p : events (handoff (DError e) p) = events p.
Proof.
  unfold events. cbn [handoffs handoff]. rewrite List.filter_app.
  apply app_nil_r.
Qed.

Lemma Error_handoff_error e p : Error (handoff (DError e) p) = Error p ++ [e].
Proof.
  unfold Error. cbn [handoffs handoff]. rewrite flat_map_app. reflexivity.
Qed.

Lemma Error_handoff_event d p :
  is_event d = true -> Error (handoff d p) = Error p.
Proof.
  intros E. unfold Error. cbn [handoffs handoff]. rewrite flat_map_app.
  destruct d; try discriminate; apply app_nil_r.
Qed.

Lemma handoff_all_spec ds : forall p,
  handoffs (handoff_all ds p) = handoffs p ++ ds
  /\ closed (handoff_all ds p) = closed p.
Proof.
  induction ds as [|d ds IH]; intros p; cbn [handoff_all fold_left].
  - rewrite app_nil_r. auto.
  - destruct (IH (handoff d p)) as [H1 H2]. unfold handoff_all in *.
    rewrite H1, H2. cbn [handoffs closed handoff]. rewrite <- app_assoc. auto.
Qed.

(** ** [handleEvent] *)

(** With both headers there, the switch sees the kind of the header and
    the bytes after it. *)
Lemma handleEvent_headers c h rest p :
  handleEvent (payload_with c h rest) p =
  switch_What (uint32 (procEventHeader.What h)) rest p.
Proof.
  unfold handleEvent, payload_with.
  rewrite (binary_Read_app cnMsg.size) by reflexivity.
  rewrite (binary_Read_app procEventHeader.size) by reflexivity.
  rewrite <- (app_nil_r (procEventHeader.put h)).
  rewrite procEventHeader_decode_put. reflexivity.
Qed.

(** With less than the two headers, the header stays zero and no case of
    the switch is taken. *)
Lemma handleEvent_short data p :
  (length data < cnMsg.size + procEventHeader.size)%nat ->
  handleEvent data p = Ok p.
Proof.
  change (cnMsg.size + procEventHeader.size)%nat with 36%nat.
  intros H. unfold handleEvent.
  unfold binary_Read at 1.
  destruct (Nat.leb_spec cnMsg.size (length data)) as [H1|H1].
  - destruct (binary_Read_short procEventHeader.size procEventHeader.decode
                procEventHeader.zero (skipn cnMsg.size data)) as [err ->].
    { rewrite length_skipn. change cnMsg.size with 20%nat in *.
      change procEventHeader.size with 16%nat. lia. }
    reflexivity.
  - destruct (binary_Read_short procEventHeader.size procEventHeader.decode
                procEventHeader.zero []) as [err ->].
    { change procEventHeader.size with 16%nat. simpl. lia. }
    reflexivity.
Qed.

(** The switch on the body of a well-formed event. *)
Lemma switch_What_body b p :
  wf_body b = true ->
  switch_What (what_of b) (put_body b) p = chan_send (delivery_of b) p.
Proof.
  intros W.
  destruct b as [e|e|e]; cbn [what_of put_body delivery_of wf_body] in *;
    unfold switch_What;
    cbn [Z.eqb PROC_EVENT_FORK PROC_EVENT_EXEC PROC_EVENT_EXIT Pos.eqb];
    repeat (apply andb_true_iff in W as [W ?]);
    rewrite binary_Read_exact by reflexivity.
  - rewrite <- (app_nil_r (forkProcEvent.put e)), forkProcEvent_decode_put.
    cbn [forkProcEvent.ParentTgid forkProcEvent.ChildTgid].
    rewrite !uint32_small by assumption. reflexivity.
  - rewrite <- (app_nil_r (execProcEvent.put e)), execProcEvent_decode_put.
    cbn [execProcEvent.ProcessTgid].
    rewrite !uint32_small by assumption. reflexivity.
  - rewrite <- (app_nil_r (exitProcEvent.put e)), exitProcEvent_decode_put.
    cbn [exitProcEvent.ProcessTgid].
    rewrite !uint32_small by assumption. reflexivity.
Qed.

Lemma handleEvent_payload e p :
  wf_body (body e) = true ->
  handleEvent (payload e) p = chan_send (delivery_of (body e)) p.
Proof.
  intros W. unfold payload. rewrite handleEvent_headers.
  cbn [procEventHeader.What].
  replace (uint32 (what_of (body e))) with (what_of (body e))
    by (destruct (body e); reflexivity).
  apply switch_What_body, W.
Qed.

Lemma switch_What_unknown What buf p :
  known_kind What = false -> switch_What What buf p = Ok p.
Proof.
  unfold known_kind, switch_What. intros H.
  apply orb_false_elim in H as [H H3]. apply orb_false_elim in H as [H1 H2].
  rewrite H1, H2, H3. reflexivity.
Qed.

(** Whatever the input, the switch hands over one event or nothing. *)
Lemma switch_What_cases What buf p :
  closed p = [] ->
  switch_What What buf p = Ok p
  \/ exists d, is_event d = true /\ switch_What What buf p = Ok (handoff d p).
Proof.
  intros O. unfold switch_What.
  repeat match goal with
         | |- context [if ?c then _ else _] => destruct c
         | |- context [binary_Read ?s ?d ?z ?b] =>
             destruct (binary_Read s d z b) as [[? ?] ?]
         end;
    try (left; reflexivity);
    right; rewrite chan_send_open by exact O; eexists;
    (split; [|reflexivity]); reflexivity.
Qed.

Lemma handleEvent_cases data p :
  closed p = [] ->
  handleEvent data p = Ok p
  \/ exists d, is_event d = true /\ handleEvent data p = Ok (handoff d p).
Proof.
  intros O. unfold handleEvent.
  destruct (binary_Read cnMsg.size _ _ data) as [[msg e1] buf1].
  destruct (binary_Read procEventHeader.size _ _ buf1) as [[hdr e2] buf2].
  apply switch_What_cases, O.
Qed.

(** The table of watched process ids is never read. *)
Lemma handleEvent_ignores_watches w data p :
  handleEvent data (set_watches w p)
  = (q <- handleEvent data p ;; Ok (set_watches w q)).
Proof.
  unfold handleEvent.
  destruct (binary_Read cnMsg.size _ _ data) as [[msg e1] buf1].
  destruct (binary_Read procEventHeader.size _ _ buf1) as [[hdr e2] buf2].
  unfold switch_What.
  repeat match goal with
         | |- context [if ?c then _ else _] => destruct c
         | |- context [binary_Read ?s ?d ?z ?b] =>
             destruct (binary_Read s d z b) as [[? ?] ?]
         end;
    try reflexivity;
    unfold chan_send, is_closed; cbn [closed set_watches];
    match goal with
    | |- context [existsb ?f ?l] => destruct (existsb f l)
    end; reflexivity.
Qed.

(** C4: for every well-formed fork, exec or exit payload, the event that
    [handleEvent] hands over carries the thread-group ids of the payload
    ([ParentTgid] and [ChildTgid] for a fork, [ProcessTgid] for an exec and
    an exit), not the process ids. *)
Theorem handleEvent_reports_tgid (e : WireEvent) (p : PsEvent) :
  wf_body (body e) = true ->
  is_closed (queue_of (delivery_of (body e))) p = false ->
  handleEvent (payload e) p = Ok (handoff (delivery_of (body e)) p).
Proof.
  intros W O. rewrite handleEvent_payload by exact W.
  unfold chan_send. rewrite O. reflexivity.
Qed.

Lemma handleEvent_reports_tgid_witness :
  handleEvent (payload fork_100_101) p0
  = Ok (handoff (DFork (ProcEventFork.mk 100 101)) p0).
Proof.
  apply (handleEvent_reports_tgid fork_100_101 p0); reflexivity.
Defined.

(** C8: a well-formed envelope and event header whose kind is none of
    0x1 (fork), 0x2 (exec) and 0x80000000 (exit) is dropped silently:
    [handleEvent] leaves the engine as it is, and the pass of the loop that
    received the frame hands over no event and no error. *)
Theorem unknown_kind_dropped (c : cnMsg.t) (h : procEventHeader.t)
    (rest : list byte) (flags sq pid : Z) (p : PsEvent) :
  is_uint32 (procEventHeader.What h) = true ->
  known_kind (procEventHeader.What h) = false ->
  len rest mod 4 = 0 -> len rest < 2 ^ 31 ->
  handleEvent (payload_with c h rest) p = Ok p
  /\ received
       (RecvOk (envelope_with NLMSG_DONE flags sq pid (payload_with c h rest)))
       p = Continue p.
Proof.
  intros U K Hal Hlt.
  assert (HE : handleEvent (payload_with c h rest) p = Ok p).
  { rewrite handleEvent_headers, uint32_small by exact U.
    apply switch_What_unknown, K. }
  split; [exact HE|].
  assert (Hp : len (payload_with c h rest) = 36 + len rest).
  { unfold payload_with. rewrite !len_app, cn_len, hdr_len. lia. }
  pose proof (len_nonneg rest) as Hr.
  unfold received.
  assert (Hl : len (envelope_with NLMSG_DONE flags sq pid
                      (payload_with c h rest)) = 52 + len rest).
  { unfold envelope_with. rewrite len_app, nl_len. lia. }
  rewrite Hl.
  destruct (Z.ltb_spec (52 + len rest) NLMSG_HDRLEN) as [Hs|_];
    [unfold NLMSG_HDRLEN in Hs; lia|].
  rewrite <- (app_nil_r (envelope_with _ _ _ _ _)).
  rewrite parse_envelope, parse_nil.
  - cbn [cons_msg dispatch NetlinkMessage.Header NetlinkMessage.Data
         NlMsghdr.Type_].
    change (uint16 NLMSG_DONE =? NLMSG_DONE) with true. cbv iota.
    rewrite HE. reflexivity.
  - rewrite Hp. Z.div_mod_to_equations. lia.
  - rewrite Hp. unfold NLMSG_HDRLEN. lia.
Qed.

Lemma unknown_kind_dropped_witness :
  handleEvent
    (payload_with (cnMsg.mk (cbId.mk 1 1) 0 0 24 0)
       (procEventHeader.mk 0x4 0 99) (put32 7 ++ put32 7)) p0 = Ok p0
  /\ received
       (RecvOk (envelope_with NLMSG_DONE 0 1 0
          (payload_with (cnMsg.mk (cbId.mk 1 1) 0 0 24 0)
             (procEventHeader.mk 0x4 0 99) (put32 7 ++ put32 7)))) p0
     = Continue p0.
Proof.
  apply (unknown_kind_dropped (cnMsg.mk (cbId.mk 1 1) 0 0 24 0)
           (procEventHeader.mk 0x4 0 99) (put32 7 ++ put32 7) 0 1 0 p0);
    reflexivity.
Defined.

(** C9: no filtering by process id.  Whatever the table of watched
    process ids holds, the event of a well-formed payload of a known kind
    is handed to its channel, and the table is left as it was. *)
Theorem no_pid_filtering (w : gmap Z watch) (e : WireEvent) (p : PsEvent) :
  wf_body (body e) = true ->
  is_closed (queue_of (delivery_of (body e))) p = false ->
  handleEvent (payload e) (set_watches w p)
  = Ok (set_watches w (handoff (delivery_of (body e)) p)).
Proof.
  intros W O.
  rewrite handleEvent_ignores_watches, handleEvent_payload by exact W.
  unfold chan_send. rewrite O. reflexivity.
Qed.

Lemma no_pid_filtering_witness :
  handleEvent (payload exec_55) (set_watches {[ 1 := mkWatch 0 ]} p0)
  = Ok (set_watches {[ 1 := mkWatch 0 ]}
          (handoff (DExec (ProcEventExec.mk 55)) p0)).
Proof.
  apply (no_pid_filtering {[ 1 := mkWatch 0 ]} exec_55 p0); reflexivity.
Defined.

(** C3 as stated fails: the payload of a fork cut after the first four
    bytes of its body is shorter than the payload, and yet an event, a fork
    with both pids zero, is handed over for it, and nothing is put on the
    error channel. *)
Lemma truncated_body_is_delivered :
  let data := firstn 40 (payload fork_100_101) in
  (length data < length (payload fork_100_101))%nat
  /\ handleEvent data p0 = Ok (handoff (DFork (ProcEventFork.mk 0 0)) p0)
  /\ events (handoff (DFork (ProcEventFork.mk 0 0)) p0)
     = [DFork (ProcEventFork.mk 0 0)]
  /\ Error (handoff (DFork (ProcEventFork.mk 0 0)) p0) = [].
Proof.
  cbv zeta. split; [vm_compute; lia|]. split; [|split; reflexivity].
  vm_compute. reflexivity.
Qed.

(** C3, amended: on every input, truncated or malformed ones included,
    [handleEvent] does not panic and puts nothing on the error channel;
    when the input is shorter than the connector header and the event
    header together it hands over no event; and the loop over the messages
    of the frame goes on with the messages after it. *)
Theorem handleEvent_any_input (data : list byte) (p : PsEvent) :
  closed p = [] ->
  exists p',
    handleEvent data p = Ok p'
    /\ Error p' = Error p
    /\ ((length data < cnMsg.size + procEventHeader.size)%nat -> p' = p)
    /\ (forall h rest,
          NlMsghdr.Type_ h = NLMSG_DONE ->
          dispatch (NetlinkMessage.mk h data :: rest) p = dispatch rest p').
Proof.
  intros O.
  destruct (handleEvent_cases data p O) as [H|[d [E H]]].
  - exists p. rewrite H. repeat split; try reflexivity.
    intros h rest T. cbn [dispatch NetlinkMessage.Header NetlinkMessage.Data].
    rewrite T, H. reflexivity.
  - exists (handoff d p). rewrite H. split; [reflexivity|].
    split; [apply Error_handoff_event, E|]. split.
    + intros S. rewrite handleEvent_short in H by exact S. congruence.
    + intros h rest T.
      cbn [dispatch NetlinkMessage.Header NetlinkMessage.Data].
      rewrite T, H. reflexivity.
Qed.

Lemma handleEvent_any_input_witness :
  exists p',
    handleEvent [Byte.x01; Byte.x02] p0 = Ok p'
    /\ Error p' = Error p0
    /\ ((length [Byte.x01; Byte.x02] < cnMsg.size + procEventHeader.size)%nat
        -> p' = p0)
    /\ (forall h rest,
          NlMsghdr.Type_ h = NLMSG_DONE ->
          dispatch (NetlinkMessage.mk h [Byte.x01; Byte.x02] :: rest) p0
          = dispatch rest p').
Proof.
  apply (handleEvent_any_input [Byte.x01; Byte.x02] p0). reflexivity.
Defined.

(** ** Frames of several events *)

Lemma parse_frame evs :
  ParseNetlinkMessage (frame_of evs) = (map msg_of evs, None).
Proof.
  induction evs as [|e evs IH]; [reflexivity|].
  cbn [frame_of flat_map map]. unfold envelope at 1.
  rewrite parse_envelope.
  - fold (frame_of evs). rewrite IH. reflexivity.
  - rewrite payload_len. destruct (body e); reflexivity.
  - rewrite payload_len. destruct (body e); reflexivity.
Qed.

Lemma dispatch_frame evs : forall p,
  Forall (fun e => wf_body (body e) = true) evs ->
  closed p = [] ->
  dispatch (map msg_of evs) p
  = Ok (handoff_all (map (fun e => delivery_of (body e)) evs) p).
Proof.
  induction evs as [|e evs IH]; intros p W O; [reflexivity|].
  inversion W as [|? ? We Wevs]; subst.
  cbn [map dispatch msg_of NetlinkMessage.Header NetlinkMessage.Data
       NlMsghdr.Type_].
  change (uint16 NLMSG_DONE =? NLMSG_DONE) with true. cbv iota.
  rewrite handleEvent_payload by exact We.
  rewrite chan_send_open by exact O. cbn [and_then].
  rewrite IH by (assumption || exact O). reflexivity.
Qed.

Lemma frame_len evs : evs <> [] -> NLMSG_HDRLEN <= len (frame_of evs).
Proof.
  destruct evs as [|e evs]; [congruence|]. intros _.
  cbn [frame_of flat_map]. generalize (flat_map envelope evs) as rest.
  intros rest. unfold envelope, envelope_with.
  rewrite !len_app, payload_len, nl_len.
  pose proof (len_nonneg rest).
  unfold NLMSG_HDRLEN. destruct (body e); lia.
Qed.

Lemma filter_events_deliveries evs :
  List.filter is_event (map (fun e => delivery_of (body e)) evs)
  = map (fun e => delivery_of (body e)) evs.
Proof.
  induction evs as [|e evs IH]; [reflexivity|].
  cbn [map List.filter]. rewrite IH. destruct (body e); reflexivity.
Qed.

(** C7: a frame of N consecutively encoded well-formed events of mixed
    kinds yields exactly N events, handed over in the order of the frame,
    each on the channel of its kind; and when the frame holds an event at
    all, nothing else is handed over. *)
Theorem frame_events_in_order (evs : list WireEvent) (p : PsEvent) :
  Forall (fun e => wf_body (body e) = true) evs ->
  closed p = [] ->
  exists p',
    received (RecvOk (frame_of evs)) p = Continue p'
    /\ events p' = events p ++ map (fun e => delivery_of (body e)) evs
    /\ (evs <> [] ->
        handoffs p' = handoffs p ++ map (fun e => delivery_of (body e)) evs).
Proof.
  intros W O. unfold received.
  destruct evs as [|e evs].
  - cbn [frame_of flat_map map]. change (len [] <? NLMSG_HDRLEN) with true.
    cbv iota. rewrite chan_send_open by exact O.
    exists (handoff (DError EINVAL) p). split; [reflexivity|].
    split; [|congruence].
    rewrite events_handoff_error. symmetry. apply app_nil_r.
  - assert (L : NLMSG_HDRLEN <= len (frame_of (e :: evs)))
      by (apply frame_len; congruence).
    destruct (Z.ltb_spec (len (frame_of (e :: evs))) NLMSG_HDRLEN) as [Hs|_];
      [lia|].
    rewrite parse_frame, dispatch_frame by assumption.
    eexists. split; [reflexivity|].
    destruct (handoff_all_spec
                (map (fun e => delivery_of (body e)) (e :: evs)) p) as [H _].
    split; [|intros _; exact H].
    unfold events. rewrite H, List.filter_app, filter_events_deliveries.
    reflexivity.
Qed.

Lemma frame_events_in_order_witness :
  exists p',
    received (RecvOk (frame_of [fork_100_101; exec_55; exit_55])) p0
    = Continue p'
    /\ events p'
       = events p0
         ++ map (fun e => delivery_of (body e)) [fork_100_101; exec_55; exit_55]
    /\ ([fork_100_101; exec_55; exit_55] <> [] ->
        handoffs p'
        = handoffs p0
          ++ map (fun e => delivery_of (body e))
               [fork_100_101; exec_55; exit_55]).
Proof.
  apply (frame_events_in_order [fork_100_101; exec_55; exit_55] p0);
    [repeat constructor | reflexivity].
Defined.

(** One frame with the fork of 100 into 101: the fork channel yields that
    event once, and the other channels nothing. *)
Example one_fork_frame :
  exists p,
    readEvents [RecvOk (frame_of [fork_100_101])] w0 = Blocked p
    /\ Fork p = [ProcEventFork.mk 100 101]
    /\ Exec p = [] /\ Exit p = [] /\ Error p = [].
Proof.
  eexists. split; [vm_compute; reflexivity|]. repeat split; reflexivity.
Qed.

(** Two frames, an exec and then an exit of process 55, reach their
    channels in that order. *)
Example exec_then_exit :
  exists p,
    readEvents [RecvOk (frame_of [exec_55]); RecvOk (frame_of [exit_55])] w0
    = Blocked p
    /\ handoffs p = [DExec (ProcEventExec.mk 55); DExit (ProcEventExit.mk 55)].
Proof.
  eexists. split; [vm_compute; reflexivity|]. reflexivity.
Qed.

(** A frame whose second envelope announces more bytes than the frame
    holds: [ParseNetlinkMessage] fails, the loop ignores the error, and the
    first event is lost with it. *)
Example broken_envelope_drops_frame :
  received
    (RecvOk (frame_of [fork_100_101] ++ firstn 20 (frame_of [exec_55]))) p0
  = Continue p0.
Proof. vm_compute. reflexivity. Qed.

(** ** Control frames *)

(** The frame of [send] is an envelope around the connector header and
    the operation code. *)
Lemma send_frame_envelope pid op l :
  send_frame pid op l =
  (NetLink.mk (NetLink.addr l) (NetLink.sock l) (uint32 (NetLink.seq l + 1)),
   envelope_with NLMSG_DONE 0 (uint32 (NetLink.seq l + 1)) (uint32 pid)
     (cnMsg.put (cnMsg.mk (cbId.mk _CN_IDX_PROC _CN_VAL_PROC) 0 0 4 0)
        ++ put32 op)).
Proof.
  unfold send_frame, envelope_with, NetLinkMessage.put.
  cbn [NetLinkMessage.Header NetLinkMessage.Data NetLink.seq].
  rewrite len_app, cn_len. rewrite <- app_assoc. reflexivity.
Qed.

(** C5: round trip of a control frame.  For an operation code that is a
    [uint32], listen and ignore among them, and every value of the
    sequence counter, reading back the frame that [send] lays out gives the
    sequence number that [send] left in the listener, the channel
    identifier (idx 1, val 1) and the operation code. *)
Theorem control_frame_roundtrip (pid op : Z) (l : NetLink.t) :
  is_uint32 op = true ->
  decode_control (snd (send_frame pid op l)) =
  Some (NlMsghdr.mk 40 NLMSG_DONE 0 (NetLink.seq (fst (send_frame pid op l)))
                    (uint32 pid),
        cnMsg.mk (cbId.mk 1 1) 0 0 4 0,
        op).
Proof.
  intros U. rewrite send_frame_envelope. cbn [fst snd NetLink.seq].
  unfold decode_control.
  rewrite <- (app_nil_r (envelope_with _ _ _ _ _)).
  rewrite parse_envelope, parse_nil by (rewrite control_len; reflexivity).
  cbn [cons_msg NetlinkMessage.Data NetlinkMessage.Header].
  rewrite (binary_Read_app cnMsg.size) by reflexivity.
  rewrite (binary_Read_exact size_uint32) by reflexivity.
  rewrite control_len, <- (app_nil_r (cnMsg.put _)), cnMsg_decode_put.
  unfold put32. rewrite <- (app_nil_r (le_split 4 op)), get_u32.
  rewrite !uint32_idem, (uint32_small op) by exact U.
  reflexivity.
Qed.

Lemma control_frame_roundtrip_witness :
  decode_control (snd (send_frame 1234 _PROC_CN_MCAST_LISTEN NetLink.zero)) =
  Some (NlMsghdr.mk 40 NLMSG_DONE 0
          (NetLink.seq
             (fst (send_frame 1234 _PROC_CN_MCAST_LISTEN NetLink.zero)))
          (uint32 1234),
        cnMsg.mk (cbId.mk 1 1) 0 0 4 0,
        _PROC_CN_MCAST_LISTEN).
Proof.
  apply (control_frame_roundtrip 1234 _PROC_CN_MCAST_LISTEN NetLink.zero).
  reflexivity.
Defined.

(** C10: in every frame that [send] produces, the incremented counter is
    in the sequence field of the envelope only, the sequence and
    acknowledgment fields of the connector header are zero, and the length
    field of the envelope is the number of bytes handed to [Sendto]:
    envelope header, connector header and four bytes of operation code. *)
Theorem send_frame_layout (o : Outcomes) (op : Z) (l : NetLink.t)
    (k : Kernel) :
  let l' := fst (send_frame (getpid o) op l) in
  let frame := snd (send_frame (getpid o) op l) in
  NetLink.seq l' = uint32 (NetLink.seq l + 1)
  /\ NlMsghdr.Seq (NlMsghdr.decode frame) = NetLink.seq l'
  /\ cnMsg.Seq (cnMsg.decode (skipn (Z.to_nat NLMSG_HDRLEN) frame)) = 0
  /\ cnMsg.Ack (cnMsg.decode (skipn (Z.to_nat NLMSG_HDRLEN) frame)) = 0
  /\ NlMsghdr.Len (NlMsghdr.decode frame) = len frame
  /\ len frame = NLMSG_HDRLEN + Z.of_nat cnMsg.size + 4
  /\ send o op l k =
     (let '(k', err) :=
        sys_Sendto (sendto_result o) (NetLink.sock l) frame k in
      (l', k', err)).
Proof.
  cbv zeta. rewrite send_frame_envelope. cbn [fst snd NetLink.seq].
  split; [reflexivity|].
  unfold envelope_with. rewrite NlMsghdr_decode_put.
  cbn [NlMsghdr.Seq NlMsghdr.Len].
  rewrite skipn_app, skipn_all2 by (rewrite nl_size; cbv; lia).
  rewrite nl_size. change (Z.to_nat NLMSG_HDRLEN - 16)%nat with 0%nat.
  cbn [app]. rewrite skipn_O, cnMsg_decode_put. cbn [cnMsg.Seq cnMsg.Ack].
  rewrite uint32_idem, !control_len, len_app, nl_len, control_len.
  repeat split; reflexivity.
Qed.

(** ** The loop *)

Lemma pass_running r p : done p = [] -> pass r p = received r p.
Proof. unfold pass, isDone. intros ->. reflexivity. Qed.

(** With every channel open, a pass after a receive goes on: it neither
    panics nor closes a channel nor touches [done] or the watch table. *)
Lemma dispatch_total msgs : forall p,
  closed p = [] ->
  exists p', dispatch msgs p = Ok p'
             /\ closed p' = [] /\ done p' = done p /\ watches p' = watches p.
Proof.
  induction msgs as [|m msgs IH]; intros p O; cbn [dispatch].
  - eauto.
  - destruct (_ =? _); [|apply IH, O].
    destruct (handleEvent_cases (NetlinkMessage.Data m) p O)
      as [H|[d [_ H]]]; rewrite H; cbn [and_then].
    + apply IH, O.
    + destruct (IH (handoff d p) O) as (p' & H1 & H2 & H3 & H4). eauto.
Qed.

Lemma received_total r p :
  closed p = [] ->
  exists p', received r p = Continue p'
             /\ closed p' = [] /\ done p' = done p /\ watches p' = watches p.
Proof.
  intros O. unfold received. destruct r as [err|frame].
  - rewrite chan_send_open by exact O. eauto.
  - destruct (_ <? _).
    + rewrite chan_send_open by exact O. eauto.
    + destruct (ParseNetlinkMessage frame) as [msgs e].
      destruct (dispatch_total msgs p O) as (p' & -> & H). eauto.
Qed.

(** ** Stopping *)

(** [Close] touches the listener only. *)
Lemma Close_keeps o p k :
  closed (fst (fst (Close o p k))) = closed p
  /\ done (fst (fst (Close o p k))) = done p
  /\ handoffs (fst (fst (Close o p k))) = handoffs p
  /\ watches (fst (fst (Close o p k))) = watches p.
Proof.
  unfold Close. destruct (close o (listener p) k) as [[l k'] err].
  auto.
Qed.

Lemma act_never_stopped s a : never_stopped s -> never_stopped (act s a).
Proof.
  intros (L & O & D). destruct a as [r|o]; cbn [act].
  - rewrite L, pass_running by exact D.
    destruct (received_total r (engine s) O) as (p' & -> & O' & D' & _).
    repeat split; cbn; congruence.
  - pose proof (Close_keeps o (engine s) (kernel s)) as (C1 & C2 & _).
    destruct (Close o (engine s) (kernel s)) as [[p' k'] err].
    cbn [fst] in *. repeat split; cbn; congruence.
Qed.

Lemma run_never_stopped acts : forall s,
  never_stopped s -> never_stopped (run acts s).
Proof.
  induction acts as [|a acts IH]; intros s H; [exact H|].
  cbn [run fold_left]. apply IH, act_never_stopped, H.
Qed.

Lemma Listen_engine o k w k' :
  Listen o k = (Some w, None, k') ->
  closed w = [] /\ done w = [] /\ handoffs w = [] /\ watches w = ∅.
Proof.
  unfold Listen. destruct (createListener o k) as [[l k1] [e|]];
    intros [= <- <-]; auto.
Qed.

Example Listen_succeeds : Listen listen_ok k0 = (Some w0, None, k1).
Proof. reflexivity. Qed.

(** After [Close] the socket is released, the counter has advanced, and
    [done] is as empty as before. *)
Example Close_after_Listen :
  Close listen_ok w0 k1
  = (mkPsEvent
       (NetLink.mk (Some (SockaddrNetlink.mk AF_NETLINK _CN_IDX_PROC)) 3 2)
       ∅ [] [] [] false,
     mkKernel (({[ 3 ]} ∪ ∅) ∖ {[ 3 ]})
       (wire k1 ++ [(3, snd (send_frame 1000 _PROC_CN_MCAST_IGNORE
                                (listener w0)))]),
     None).
Proof. reflexivity. Qed.

(** C1 fails on the code: [Close] never puts a value in [done].  From an
    engine that [Listen] returned, whatever the caller and the socket do
    afterwards, calls of [Close] included, the loop is still running, no
    channel is closed and [done] is empty. *)
Theorem Close_never_stops_the_loop (o : Outcomes) (k k' : Kernel)
    (w : PsEvent) (acts : list Action) :
  Listen o k = (Some w, None, k') ->
  never_stopped (run acts (mkSystem w k' Running)).
Proof.
  intros H. apply Listen_engine in H as (O & D & _).
  apply run_never_stopped. repeat split; assumption.
Qed.

Lemma Close_never_stops_the_loop_witness :
  never_stopped
    (run [AClose listen_ok; ARecv (RecvErr EBADF);
          ARecv (RecvOk (frame_of [fork_100_101]))]
       (mkSystem w0 k1 Running)).
Proof.
  apply (Close_never_stops_the_loop listen_ok k0 k1 w0). reflexivity.
Defined.

(** ** Opening *)

(** C2 fails on the code: when the socket is there and [Bind] fails, or
    [Bind] succeeds and the send of the listen frame fails, [Listen]
    returns the error and no engine, and the descriptor is still open. *)
Theorem Listen_leaks_the_socket (o : Outcomes) (k : Kernel) (fd : Z)
    (e : Errno) :
  socket_result o = inl fd ->
  bind_result o = Some e
  \/ (bind_result o = None /\ sendto_result o = Some e) ->
  exists k', Listen o k = (None, Some e, k') /\ fd ∈ open_fds k'.
Proof.
  intros S F.
  assert (I : fd ∈ {[fd]} ∪ open_fds k)
    by (apply elem_of_union_l, elem_of_singleton; reflexivity).
  unfold Listen, createListener, bind. rewrite S.
  cbn [sys_Socket]. unfold sys_Bind. cbn [NetLink.sock open_fds].
  rewrite decide_True by exact I.
  destruct F as [B|[B T]]; rewrite B.
  - eexists. split; [reflexivity|]. exact I.
  - unfold send. cbn [send_frame NetLink.sock]. unfold sys_Sendto.
    cbn [open_fds]. rewrite decide_True by exact I.
    rewrite T. eexists. split; [reflexivity|]. exact I.
Qed.

Lemma Listen_leaks_the_socket_witness :
  exists k', Listen bind_fails k0 = (None, Some 13, k') /\ 3 ∈ open_fds k'.
Proof.
  apply (Listen_leaks_the_socket bind_fails k0 3 13); [reflexivity|].
  left. reflexivity.
Defined.

(** * Further properties of the code *)

(** ** Opening and closing the listener *)

(** What [send] does when the socket is open. *)
Lemma send_open o op l k :
  NetLink.sock l ∈ open_fds k ->
  send o op l k =
  (fst (send_frame (getpid o) op l),
   match sendto_result o with
   | None =>
       mkKernel (open_fds k)
         (wire k ++ [(NetLink.sock l, snd (send_frame (getpid o) op l))])
   | Some _ => k
   end,
   sendto_result o).
Proof.
  intros I. unfold send. cbn [send_frame NetLink.sock fst snd].
  unfold sys_Sendto. rewrite decide_True by exact I.
  destruct (sendto_result o); reflexivity.
Qed.

(** The layers of the frame of [send], read back. *)
Lemma decode_control_frame pid op l :
  is_uint32 op = true ->
  decode_control (snd (send_frame pid op l)) =
  Some (NlMsghdr.mk 40 NLMSG_DONE 0 (uint32 (NetLink.seq l + 1)) (uint32 pid),
        cnMsg.mk (cbId.mk 1 1) 0 0 4 0, op).
Proof.
  intros U. rewrite send_frame_envelope. cbn [snd].
  unfold decode_control.
  rewrite <- (app_nil_r (envelope_with _ _ _ _ _)).
  rewrite parse_envelope, parse_nil by (rewrite control_len; reflexivity).
  cbn [cons_msg NetlinkMessage.Data NetlinkMessage.Header].
  rewrite (binary_Read_app cnMsg.size) by reflexivity.
  rewrite (binary_Read_exact size_uint32) by reflexivity.
  rewrite control_len, <- (app_nil_r (cnMsg.put _)), cnMsg_decode_put.
  unfold put32. rewrite <- (app_nil_r (le_split 4 op)), get_u32.
  rewrite !uint32_idem, (uint32_small op) by exact U.
  reflexivity.
Qed.

Lemma socket_is_open (fd : Z) (X : gset Z) : fd ∈ {[ fd ]} ∪ X.
Proof. apply elem_of_union_l, elem_of_singleton. reflexivity. Qed.

Lemma remove_added (fd : Z) (X : gset Z) :
  fd ∉ X -> ({[ fd ]} ∪ X) ∖ {[ fd ]} = X.
Proof.
  intros N. apply set_eq. intros x.
  rewrite elem_of_difference, elem_of_union, elem_of_singleton.
  split.
  - intros [[->|H] H']; [contradiction|exact H].
  - intros H. split; [right; exact H|]. intros ->. contradiction.
Qed.

(** What [Listen] does when its three system calls succeed. *)
Lemma Listen_ok o k fd :
  socket_result o = inl fd -> bind_result o = None ->
  sendto_result o = None ->
  Listen o k =
  (Some (mkPsEvent (NetLink.mk (Some netlink_addr) fd 1) ∅ [] [] [] false),
   None,
   mkKernel ({[ fd ]} ∪ open_fds k)
     (wire k ++ [(fd, snd (send_frame (getpid o) _PROC_CN_MCAST_LISTEN
                             (NetLink.mk (Some netlink_addr) fd 0)))])).
Proof.
  intros S B T.
  unfold Listen, createListener, bind. rewrite S.
  cbn [sys_Socket]. unfold sys_Bind. cbn [NetLink.sock open_fds].
  rewrite decide_True by apply socket_is_open. rewrite B.
  cbn [NetLink.seq NetLink.zero]. fold netlink_addr.
  rewrite send_open by apply socket_is_open. rewrite T. reflexivity.
Qed.

(** X1: when [Socket], [Bind] and [Sendto] succeed, [Listen] returns an
    engine and no error: the listener holds the descriptor and the
    sequence counter 1, the channels are open and empty, the watch table is
    empty, the descriptor is open, and exactly one frame went out on it,
    which reads back as the listen operation with sequence number 1. *)
Theorem Listen_subscribes (o : Outcomes) (k : Kernel) (fd : Z) :
  socket_result o = inl fd -> bind_result o = None ->
  sendto_result o = None ->
  exists frame,
    Listen o k =
    (Some (mkPsEvent (NetLink.mk (Some netlink_addr) fd 1) ∅ [] [] [] false),
     None,
     mkKernel ({[ fd ]} ∪ open_fds k) (wire k ++ [(fd, frame)]))
    /\ decode_control frame =
       Some (NlMsghdr.mk 40 NLMSG_DONE 0 1 (uint32 (getpid o)),
             cnMsg.mk (cbId.mk 1 1) 0 0 4 0, _PROC_CN_MCAST_LISTEN).
Proof.
  intros S B T. eexists. split; [exact (Listen_ok o k fd S B T)|].
  rewrite decode_control_frame by reflexivity. reflexivity.
Qed.

Lemma Listen_subscribes_witness :
  exists frame,
    Listen listen_ok k0 =
    (Some (mkPsEvent (NetLink.mk (Some netlink_addr) 3 1) ∅ [] [] [] false),
     None,
     mkKernel ({[ 3 ]} ∪ open_fds k0) (wire k0 ++ [(3, frame)]))
    /\ decode_control frame =
       Some (NlMsghdr.mk 40 NLMSG_DONE 0 1 (uint32 (getpid listen_ok)),
             cnMsg.mk (cbId.mk 1 1) 0 0 4 0, _PROC_CN_MCAST_LISTEN).
Proof.
  apply (Listen_subscribes listen_ok k0 3); reflexivity.
Defined.

(** X2: [Listen] returns an engine or an error, never both and never
    neither; and when it returns an error, nothing was sent on the socket. *)
Theorem Listen_engine_or_error (o : Outcomes) (k : Kernel) :
  (fst (fst (Listen o k)) = None <-> snd (fst (Listen o k)) <> None)
  /\ (snd (fst (Listen o k)) <> None -> wire (snd (Listen o k)) = wire k).
Proof.
  unfold Listen, createListener, bind.
  destruct (socket_result o) as [fd|e]; cbn [sys_Socket].
  - unfold sys_Bind. cbn [NetLink.sock open_fds].
    rewrite decide_True by apply socket_is_open.
    destruct (bind_result o) as [e|].
    + cbn. split; [split; [discriminate|reflexivity]|reflexivity].
    + rewrite send_open by apply socket_is_open.
      destruct (sendto_result o) as [e|]; cbn.
      * split; [split; [discriminate|reflexivity]|reflexivity].
      * split; [split; [discriminate|congruence]|congruence].
  - cbn. split; [split; [discriminate|reflexivity]|reflexivity].
Qed.

(** X3: [close] on a listener whose socket is open releases the socket
    whether the ignore frame could be sent or not: the descriptor is
    closed, no other descriptor is touched, the counter has advanced, the
    frame is on the wire only when [Sendto] succeeded, and the error
    returned is the one of [Sendto]. *)
Theorem close_releases_the_socket (o : Outcomes) (l : NetLink.t)
    (k : Kernel) :
  NetLink.sock l ∈ open_fds k ->
  exists k',
    close o l k =
    (NetLink.mk (NetLink.addr l) (NetLink.sock l) (uint32 (NetLink.seq l + 1)),
     k', sendto_result o)
    /\ open_fds k' = open_fds k ∖ {[ NetLink.sock l ]}
    /\ wire k' =
       match sendto_result o with
       | None =>
           wire k ++ [(NetLink.sock l,
                       snd (send_frame (getpid o) _PROC_CN_MCAST_IGNORE l))]
       | Some _ => wire k
       end.
Proof.
  intros I. unfold close. rewrite send_open by exact I.
  cbn [send_frame fst NetLink.sock NetLink.addr NetLink.seq].
  unfold sys_Close.
  destruct (sendto_result o) as [e|]; cbn [open_fds];
    rewrite decide_True by exact I; eexists;
    (split; [reflexivity|split; reflexivity]).
Qed.

Lemma close_releases_the_socket_witness :
  exists k',
    close send_fails (listener w0) k1 =
    (NetLink.mk (NetLink.addr (listener w0)) (NetLink.sock (listener w0))
       (uint32 (NetLink.seq (listener w0) + 1)),
     k', sendto_result send_fails)
    /\ open_fds k' = open_fds k1 ∖ {[ NetLink.sock (listener w0) ]}
    /\ wire k' =
       match sendto_result send_fails with
       | None =>
           wire k1 ++ [(NetLink.sock (listener w0),
                        snd (send_frame (getpid send_fails)
                               _PROC_CN_MCAST_IGNORE (listener w0)))]
       | Some _ => wire k1
       end.
Proof.
  apply (close_releases_the_socket send_fails (listener w0) k1).
  apply socket_is_open.
Defined.

(** X4: [Listen] followed by [Close], with every system call succeeding
    and a descriptor that was not open before: the kernel has the same
    descriptors open as before [Listen], two frames went out, the listen
    operation with sequence number 1 and then the ignore operation with
    sequence number 2, and the channels of the engine are as [Listen] made
    them. *)
Theorem Listen_then_Close (o1 o2 : Outcomes) (k : Kernel) (fd : Z) :
  socket_result o1 = inl fd -> bind_result o1 = None ->
  sendto_result o1 = None -> sendto_result o2 = None ->
  fd ∉ open_fds k ->
  exists w k1 f1 f2,
    Listen o1 k = (Some w, None, k1)
    /\ Close o2 w k1 =
       (mkPsEvent (NetLink.mk (Some netlink_addr) fd 2) ∅ [] [] [] false,
        mkKernel (open_fds k) (wire k ++ [(fd, f1); (fd, f2)]),
        None)
    /\ decode_control f1 =
       Some (NlMsghdr.mk 40 NLMSG_DONE 0 1 (uint32 (getpid o1)),
             cnMsg.mk (cbId.mk 1 1) 0 0 4 0, _PROC_CN_MCAST_LISTEN)
    /\ decode_control f2 =
       Some (NlMsghdr.mk 40 NLMSG_DONE 0 2 (uint32 (getpid o2)),
             cnMsg.mk (cbId.mk 1 1) 0 0 4 0, _PROC_CN_MCAST_IGNORE).
Proof.
  intros S B T1 T2 N.
  eexists _, _,
    (snd (send_frame (getpid o1) _PROC_CN_MCAST_LISTEN
            (NetLink.mk (Some netlink_addr) fd 0))),
    (snd (send_frame (getpid o2) _PROC_CN_MCAST_IGNORE
            (NetLink.mk (Some netlink_addr) fd 1))).
  split; [exact (Listen_ok o1 k fd S B T1)|]. split; [|split].
  - unfold Close, close. cbn [listener fst send_frame].
    rewrite send_open by apply socket_is_open. rewrite T2.
    cbn [send_frame fst NetLink.sock NetLink.addr NetLink.seq].
    unfold sys_Close. cbn [open_fds wire].
    rewrite decide_True by apply socket_is_open.
    rewrite remove_added by exact N. rewrite <- app_assoc. reflexivity.
  - rewrite decode_control_frame by reflexivity. reflexivity.
  - rewrite decode_control_frame by reflexivity. reflexivity.
Qed.

Lemma Listen_then_Close_witness :
  exists w k1 f1 f2,
    Listen listen_ok k0 = (Some w, None, k1)
    /\ Close listen_ok w k1 =
       (mkPsEvent (NetLink.mk (Some netlink_addr) 3 2) ∅ [] [] [] false,
        mkKernel (open_fds k0) (wire k0 ++ [(3, f1); (3, f2)]),
        None)
    /\ decode_control f1 =
       Some (NlMsghdr.mk 40 NLMSG_DONE 0 1 (uint32 (getpid listen_ok)),
             cnMsg.mk (cbId.mk 1 1) 0 0 4 0, _PROC_CN_MCAST_LISTEN)
    /\ decode_control f2 =
       Some (NlMsghdr.mk 40 NLMSG_DONE 0 2 (uint32 (getpid listen_ok)),
             cnMsg.mk (cbId.mk 1 1) 0 0 4 0, _PROC_CN_MCAST_IGNORE).
Proof.
  apply (Listen_then_Close listen_ok listen_ok k0 3); try reflexivity.
  cbn. apply not_elem_of_empty.
Defined.

(** ** Frames that are not a plain sequence of events *)

(** The messages of a frame that starts with encoded events, in front of
    the result of parsing what follows them. *)
Lemma parse_frame_app evs rest :
  ParseNetlinkMessage (frame_of evs ++ rest) =
  match ParseNetlinkMessage rest with
  | (ms, None) => (map msg_of evs ++ ms, None)
  | (ms, Some e) => (ms, Some e)
  end.
Proof.
  induction evs as [|e evs IH].
  - cbn [frame_of flat_map map app].
    destruct (ParseNetlinkMessage rest) as [ms [err|]]; reflexivity.
  - cbn [frame_of flat_map map]. unfold envelope at 1.
    rewrite <- app_assoc, parse_envelope.
    + fold (frame_of evs). rewrite IH.
      destruct (ParseNetlinkMessage rest) as [ms [err|]]; reflexivity.
    + rewrite payload_len. destruct (body e); reflexivity.
    + rewrite payload_len. destruct (body e); reflexivity.
Qed.

Lemma parse_short tail :
  len tail < NLMSG_HDRLEN -> ParseNetlinkMessage tail = ([], None).
Proof.
  intros H. rewrite ParseNetlinkMessage_unfold.
  apply Z.ltb_lt in H. rewrite H. reflexivity.
Qed.

Lemma parse_rejected bad :
  NLMSG_HDRLEN <= len bad ->
  get 4 0 bad < NLMSG_HDRLEN \/ len bad < nlmAlignOf (get 4 0 bad) ->
  ParseNetlinkMessage bad = ([], Some EINVAL).
Proof.
  intros H R. rewrite ParseNetlinkMessage_unfold.
  apply Z.ltb_ge in H. rewrite H.
  unfold netlinkMessageHeaderAndData. cbn [NlMsghdr.decode NlMsghdr.Len].
  replace ((get 4 0 bad <? NLMSG_HDRLEN)
           || (len bad <? nlmAlignOf (get 4 0 bad))) with true; [reflexivity|].
  symmetry. apply orb_true_iff.
  destruct R as [R|R]; [left|right]; apply Z.ltb_lt, R.
Qed.

Lemma frame_app_len evs rest :
  evs <> [] \/ NLMSG_HDRLEN <= len rest ->
  (len (frame_of evs ++ rest) <? NLMSG_HDRLEN) = false.
Proof.
  intros H. apply Z.ltb_ge. rewrite len_app.
  pose proof (len_nonneg rest). pose proof (len_nonneg (frame_of evs)).
  destruct H as [H|H]; [apply frame_len in H|]; lia.
Qed.

Lemma handoffs_dispatch_frame evs p :
  Forall (fun e => wf_body (body e) = true) evs ->
  closed p = [] ->
  exists p',
    dispatch (map msg_of evs) p = Ok p'
    /\ handoffs p' = handoffs p ++ map (fun e => delivery_of (body e)) evs.
Proof.
  intros W O. rewrite dispatch_frame by assumption.
  eexists. split; [reflexivity|]. apply handoff_all_spec.
Qed.

(** X5: a message whose type is not [NLMSG_DONE] is skipped without an
    event and without an error, and the events that follow it in the same
    frame are handed over as usual. *)
Theorem other_types_skipped (ty flags sq pid : Z) (data : list byte)
    (evs : list WireEvent) (p : PsEvent) :
  uint16 ty <> NLMSG_DONE ->
  len data mod 4 = 0 -> NLMSG_HDRLEN + len data < 2 ^ 32 ->
  Forall (fun e => wf_body (body e) = true) evs ->
  closed p = [] ->
  exists p',
    received (RecvOk (envelope_with ty flags sq pid data ++ frame_of evs)) p
    = Continue p'
    /\ handoffs p' = handoffs p ++ map (fun e => delivery_of (body e)) evs.
Proof.
  intros T A F W O. unfold received.
  assert (L : (len (envelope_with ty flags sq pid data ++ frame_of evs)
               <? NLMSG_HDRLEN) = false).
  { apply Z.ltb_ge. unfold envelope_with. rewrite !len_app, nl_len.
    pose proof (len_nonneg data). pose proof (len_nonneg (frame_of evs)).
    unfold NLMSG_HDRLEN. lia. }
  rewrite L, parse_envelope, parse_frame by assumption.
  cbn [cons_msg dispatch NetlinkMessage.Header NlMsghdr.Type_].
  apply Z.eqb_neq in T. rewrite T.
  destruct (handoffs_dispatch_frame evs p W O) as (p' & -> & H).
  exists p'. split; [reflexivity|exact H].
Qed.

Lemma other_types_skipped_witness :
  exists p',
    received
      (RecvOk (envelope_with 2 0 1 0 (put32 0) ++ frame_of [exit_55])) p0
    = Continue p'
    /\ handoffs p'
       = handoffs p0 ++ map (fun e => delivery_of (body e)) [exit_55].
Proof.
  apply (other_types_skipped 2 0 1 0 (put32 0) [exit_55] p0);
    [vm_compute; discriminate | reflexivity | reflexivity
    | repeat constructor | reflexivity].
Defined.

(** X6: when a frame holds, after any number of well-formed events, an
    envelope that [ParseNetlinkMessage] rejects (its length field is below
    the header length or beyond the bytes that are left), the whole frame
    is dropped: the events in front of the bad envelope are not handed
    over, and nothing is put on the error channel. *)
Theorem rejected_envelope_drops_frame (evs : list WireEvent)
    (bad : list byte) (p : PsEvent) :
  NLMSG_HDRLEN <= len bad ->
  get 4 0 bad < NLMSG_HDRLEN \/ len bad < nlmAlignOf (get 4 0 bad) ->
  received (RecvOk (frame_of evs ++ bad)) p = Continue p.
Proof.
  intros H R. unfold received.
  rewrite frame_app_len by (right; exact H).
  rewrite parse_frame_app, parse_rejected by assumption.
  reflexivity.
Qed.

Lemma rejected_envelope_drops_frame_witness :
  received
    (RecvOk (frame_of [fork_100_101] ++ firstn 20 (frame_of [exec_55]))) p0
  = Continue p0.
Proof.
  apply (rejected_envelope_drops_frame [fork_100_101]
           (firstn 20 (frame_of [exec_55])) p0).
  - vm_compute. discriminate.
  - right. vm_compute. reflexivity.
Defined.

(** X7: bytes left at the end of a frame that are fewer than a netlink
    header are ignored: the events in front of them are handed over and
    no error is reported. *)
Theorem trailing_bytes_ignored (evs : list WireEvent) (tail : list byte)
    (p : PsEvent) :
  Forall (fun e => wf_body (body e) = true) evs ->
  closed p = [] -> evs <> [] -> len tail < NLMSG_HDRLEN ->
  exists p',
    received (RecvOk (frame_of evs ++ tail)) p = Continue p'
    /\ handoffs p' = handoffs p ++ map (fun e => delivery_of (body e)) evs.
Proof.
  intros W O N T. unfold received.
  rewrite frame_app_len by (left; exact N).
  rewrite parse_frame_app, parse_short, app_nil_r by exact T.
  destruct (handoffs_dispatch_frame evs p W O) as (p' & -> & H).
  exists p'. split; [reflexivity|exact H].
Qed.

Lemma trailing_bytes_ignored_witness :
  exists p',
    received (RecvOk (frame_of [fork_100_101] ++ [Byte.xff; Byte.xff])) p0
    = Continue p'
    /\ handoffs p'
       = handoffs p0 ++ map (fun e => delivery_of (body e)) [fork_100_101].
Proof.
  apply (trailing_bytes_ignored [fork_100_101] [Byte.xff; Byte.xff] p0);
    [repeat constructor | reflexivity | discriminate | reflexivity].
Defined.

(** ** [handleEvent] on raw bytes *)

Lemma uint32_what_of b : uint32 (what_of b) = what_of b.
Proof. destruct b; reflexivity. Qed.

Lemma get_firstn_skipn n off k s (data : list byte) :
  (off + n <= k)%nat ->
  get n off (firstn k (skipn s data)) = get n (s + off) data.
Proof.
  intros H. unfold get.
  rewrite skipn_firstn_comm, firstn_firstn, skipn_skipn.
  rewrite Nat.min_l by lia. f_equal. f_equal. f_equal. lia.
Qed.

Lemma get_bounds n off (b : list byte) :
  0 <= get n off b < 2 ^ (8 * Z.of_nat n).
Proof.
  unfold get.
  pose proof (le_combine_bound (firstn n (skipn off b))) as [H1 H2].
  split; [exact H1|].
  eapply Z.lt_le_trans; [exact H2|].
  apply Z.pow_le_mono_r; [lia|]. rewrite length_firstn. lia.
Qed.

Lemma binary_Read_enough {T} size (decode : list byte -> T) into
    (b : list byte) :
  (size <= length b)%nat ->
  binary_Read size decode into b
  = (decode (firstn size b), None, skipn size b).
Proof.
  intros H. unfold binary_Read.
  destruct (Nat.leb_spec size (length b)); [reflexivity|lia].
Qed.

Lemma binary_Read_cases {T} size (decode : list byte -> T) into
    (b : list byte) :
  binary_Read size decode into b
  = (decode (firstn size b), None, skipn size b)
  \/ exists err, binary_Read size decode into b = (into, Some err, []).
Proof.
  unfold binary_Read. destruct (size <=? length b)%nat; eauto.
Qed.

(** X8: bytes after the body are not read.  A payload whose body is
    followed by any further bytes, as the kernel sends it (its event
    struct is as long as its largest variant), gives the same event as the
    payload that ends with the body. *)
Theorem bytes_after_body_ignored (c : cnMsg.t) (cpu ts : Z) (b : Body)
    (extra : list byte) (p : PsEvent) :
  wf_body b = true ->
  is_closed (queue_of (delivery_of b)) p = false ->
  handleEvent
    (payload_with c (procEventHeader.mk (what_of b) cpu ts)
       (put_body b ++ extra)) p
  = Ok (handoff (delivery_of b) p).
Proof.
  intros W O. rewrite handleEvent_headers. cbn [procEventHeader.What].
  rewrite uint32_what_of.
  transitivity (chan_send (delivery_of b) p);
    [|unfold chan_send; rewrite O; reflexivity].
  destruct b as [e|e|e]; cbn [what_of put_body delivery_of wf_body] in *;
    unfold switch_What;
    cbn [Z.eqb PROC_EVENT_FORK PROC_EVENT_EXEC PROC_EVENT_EXIT Pos.eqb];
    repeat (apply andb_true_iff in W as [W ?]).
  - rewrite (binary_Read_app forkProcEvent.size) by reflexivity.
    rewrite <- (app_nil_r (forkProcEvent.put e)), forkProcEvent_decode_put.
    cbn [forkProcEvent.ParentTgid forkProcEvent.ChildTgid].
    rewrite !uint32_small by assumption. reflexivity.
  - rewrite (binary_Read_app execProcEvent.size) by reflexivity.
    rewrite <- (app_nil_r (execProcEvent.put e)), execProcEvent_decode_put.
    cbn [execProcEvent.ProcessTgid].
    rewrite !uint32_small by assumption. reflexivity.
  - rewrite (binary_Read_app exitProcEvent.size) by reflexivity.
    rewrite <- (app_nil_r (exitProcEvent.put e)), exitProcEvent_decode_put.
    cbn [exitProcEvent.ProcessTgid].
    rewrite !uint32_small by assumption. reflexivity.
Qed.

Lemma bytes_after_body_ignored_witness :
  handleEvent
    (payload_with (cnMsg.mk (cbId.mk 1 1) 5 0 40 0)
       (procEventHeader.mk (what_of (BExec (execProcEvent.mk 56 55))) 2 77)
       (put_body (BExec (execProcEvent.mk 56 55)) ++ put64 0 ++ put64 0)) p0
  = Ok (handoff (delivery_of (BExec (execProcEvent.mk 56 55))) p0).
Proof.
  apply (bytes_after_body_ignored (cnMsg.mk (cbId.mk 1 1) 5 0 40 0) 2 77
           (BExec (execProcEvent.mk 56 55)) (put64 0 ++ put64 0) p0);
    reflexivity.
Defined.

(** X9: a payload with both headers and a known kind whose body is
    shorter than the struct of that kind still yields an event of that
    kind, with every process id zero: the failed [binary.Read] leaves the
    struct as it was, and its error is discarded. *)
Theorem truncated_body_zero_event (c : cnMsg.t) (cpu ts : Z) (b : Body)
    (rest : list byte) (p : PsEvent) :
  (length rest < length (put_body b))%nat ->
  is_closed (queue_of (delivery_of b)) p = false ->
  handleEvent (payload_with c (procEventHeader.mk (what_of b) cpu ts) rest) p
  = Ok (handoff (delivery_of (zeroed b)) p).
Proof.
  intros S O. rewrite handleEvent_headers. cbn [procEventHeader.What].
  rewrite uint32_what_of.
  destruct b as [e|e|e]; cbn [what_of put_body delivery_of zeroed] in *;
    unfold switch_What;
    cbn [Z.eqb PROC_EVENT_FORK PROC_EVENT_EXEC PROC_EVENT_EXIT Pos.eqb].
  - destruct (binary_Read_short forkProcEvent.size forkProcEvent.decode
                forkProcEvent.zero rest) as [err ->]; [exact S|].
    unfold chan_send. cbn [queue_of] in *. rewrite O. reflexivity.
  - destruct (binary_Read_short execProcEvent.size execProcEvent.decode
                execProcEvent.zero rest) as [err ->]; [exact S|].
    unfold chan_send. cbn [queue_of] in *. rewrite O. reflexivity.
  - destruct (binary_Read_short exitProcEvent.size exitProcEvent.decode
                exitProcEvent.zero rest) as [err ->]; [exact S|].
    unfold chan_send. cbn [queue_of] in *. rewrite O. reflexivity.
Qed.

Lemma truncated_body_zero_event_witness :
  handleEvent
    (payload_with (cnMsg.mk (cbId.mk 1 1) 5 0 40 0)
       (procEventHeader.mk (what_of (BExit (exitProcEvent.mk 56 55 0 17)))
          2 77)
       (put32 56 ++ put32 55)) p0
  = Ok (handoff (delivery_of (zeroed (BExit (exitProcEvent.mk 56 55 0 17))))
          p0).
Proof.
  apply (truncated_body_zero_event (cnMsg.mk (cbId.mk 1 1) 5 0 40 0) 2 77
           (BExit (exitProcEvent.mk 56 55 0 17)) (put32 56 ++ put32 55) p0).
  - vm_compute. lia.
  - reflexivity.
Defined.

(** X10: what [handleEvent] reads, byte for byte.  On any input that is
    long enough for the two headers and the body of its kind, the kind is
    the little-endian [uint32] at offset 20, and the event carries the
    [uint32] at offset 40 (the thread-group id of the parent or of the
    process) and, for a fork, the one at offset 48 (the thread-group id of
    the child); nothing else of the input matters. *)
Theorem handleEvent_offsets (data : list byte) (p : PsEvent) :
  (36 + body_size (get 4 20 data) <= length data)%nat ->
  handleEvent data p =
  if get 4 20 data =? PROC_EVENT_FORK then
    chan_send (DFork (ProcEventFork.mk (get 4 40 data) (get 4 48 data))) p
  else if get 4 20 data =? PROC_EVENT_EXEC then
    chan_send (DExec (ProcEventExec.mk (get 4 40 data))) p
  else if get 4 20 data =? PROC_EVENT_EXIT then
    chan_send (DExit (ProcEventExit.mk (get 4 40 data))) p
  else Ok p.
Proof.
  intros L. unfold handleEvent.
  change cnMsg.size with 20%nat. change procEventHeader.size with 16%nat.
  rewrite (binary_Read_enough 20) by lia.
  rewrite (binary_Read_enough 16) by (rewrite length_skipn; lia).
  cbn [procEventHeader.What procEventHeader.decode].
  rewrite get_firstn_skipn by lia. cbn [Nat.add].
  rewrite skipn_skipn. cbn [Nat.add].
  unfold switch_What, body_size in *.
  change forkProcEvent.size with 16%nat in *.
  change execProcEvent.size with 8%nat in *.
  change exitProcEvent.size with 16%nat in *.
  destruct (get 4 20 data =? PROC_EVENT_FORK);
    [|destruct (get 4 20 data =? PROC_EVENT_EXEC);
      [|destruct (get 4 20 data =? PROC_EVENT_EXIT); [|reflexivity]]];
    rewrite binary_Read_enough by (rewrite length_skipn; lia);
    cbn [forkProcEvent.decode execProcEvent.decode exitProcEvent.decode
         forkProcEvent.ParentTgid forkProcEvent.ChildTgid
         execProcEvent.ProcessTgid exitProcEvent.ProcessTgid];
    rewrite !get_firstn_skipn by lia; reflexivity.
Qed.

Lemma handleEvent_offsets_witness :
  handleEvent (payload exec_55) p0 =
  if get 4 20 (payload exec_55) =? PROC_EVENT_FORK then
    chan_send (DFork (ProcEventFork.mk (get 4 40 (payload exec_55))
                                       (get 4 48 (payload exec_55)))) p0
  else if get 4 20 (payload exec_55) =? PROC_EVENT_EXEC then
    chan_send (DExec (ProcEventExec.mk (get 4 40 (payload exec_55)))) p0
  else if get 4 20 (payload exec_55) =? PROC_EVENT_EXIT then
    chan_send (DExit (ProcEventExit.mk (get 4 40 (payload exec_55)))) p0
  else Ok p0.
Proof.
  apply (handleEvent_offsets (payload exec_55) p0). vm_compute. lia.
Defined.

Lemma switch_What_pids What buf p p' :
  switch_What What buf p = Ok p' ->
  p' = p \/ exists d, p' = handoff d p /\ uint32_pids d.
Proof.
  unfold switch_What.
  repeat match goal with
         | |- context [if ?c then _ else _] => destruct c
         end.
  - destruct (binary_Read_cases forkProcEvent.size forkProcEvent.decode
                forkProcEvent.zero buf) as [->|[err ->]];
      unfold chan_send; destruct (is_closed _ _); intros [= <-]; right;
      eexists; (split; [reflexivity|]); split; try reflexivity;
      repeat constructor; cbn; try apply (get_bounds 4); lia.
  - destruct (binary_Read_cases execProcEvent.size execProcEvent.decode
                execProcEvent.zero buf) as [->|[err ->]];
      unfold chan_send; destruct (is_closed _ _); intros [= <-]; right;
      eexists; (split; [reflexivity|]); split; try reflexivity;
      repeat constructor; cbn; try apply (get_bounds 4); lia.
  - destruct (binary_Read_cases exitProcEvent.size exitProcEvent.decode
                exitProcEvent.zero buf) as [->|[err ->]];
      unfold chan_send; destruct (is_closed _ _); intros [= <-]; right;
      eexists; (split; [reflexivity|]); split; try reflexivity;
      repeat constructor; cbn; try apply (get_bounds 4); lia.
  - intros [= <-]. left. reflexivity.
Qed.

(** X11: on any input at all, a call of [handleEvent] that returns hands
    over at most one value; that value is an event, never an error, and
    each of its process ids is at least 0 and below 2^32. *)
Theorem handleEvent_at_most_one_event (data : list byte) (p p' : PsEvent) :
  handleEvent data p = Ok p' ->
  p' = p \/ exists d, p' = handoff d p /\ uint32_pids d.
Proof.
  unfold handleEvent.
  destruct (binary_Read cnMsg.size _ _ data) as [[msg e1] buf1].
  destruct (binary_Read procEventHeader.size _ _ buf1) as [[hdr e2] buf2].
  apply switch_What_pids.
Qed.

Lemma handleEvent_at_most_one_event_witness :
  handoff (DFork (ProcEventFork.mk 100 101)) p0 = p0
  \/ exists d,
       handoff (DFork (ProcEventFork.mk 100 101)) p0 = handoff d p0
       /\ uint32_pids d.
Proof.
  apply (handleEvent_at_most_one_event (payload fork_100_101) p0
           (handoff (DFork (ProcEventFork.mk 100 101)) p0)).
  reflexivity.
Defined.

(** ** The loop on any input *)

Lemma extends_refl p : extends p p [].
Proof. unfold extends. rewrite app_nil_r. auto 10. Qed.

Lemma extends_handoff p d : extends p (handoff d p) [d].
Proof. unfold extends. cbn. auto 10. Qed.

Lemma extends_trans p q r m1 m2 :
  extends p q m1 -> extends q r m2 -> extends p r (m1 ++ m2).
Proof.
  unfold extends.
  intros (A1 & A2 & A3 & A4 & A5 & A6) (B1 & B2 & B3 & B4 & B5 & B6).
  rewrite B1, A1, app_assoc. repeat split; congruence.
Qed.

(** The messages of a frame give at most one event each, and no error. *)
Lemma dispatch_extends msgs : forall p,
  closed p = [] ->
  exists p' more,
    dispatch msgs p = Ok p' /\ extends p p' more
    /\ forallb is_event more = true
    /\ (length more <= length msgs)%nat.
Proof.
  induction msgs as [|m msgs IH]; intros p O; cbn [dispatch].
  - exists p, []. split; [reflexivity|]. split; [apply extends_refl|].
    split; [reflexivity|]. simpl. lia.
  - destruct (_ =? _).
    + destruct (handleEvent_cases (NetlinkMessage.Data m) p O)
        as [H|[d [E H]]]; rewrite H; cbn [and_then].
      * destruct (IH p O) as (p' & more & H1 & H2 & H3 & H4).
        exists p', more. repeat split; try assumption; try apply H2.
        simpl. lia.
      * destruct (IH (handoff d p) O) as (p' & more & H1 & H2 & H3 & H4).
        exists p', ([d] ++ more). split; [exact H1|].
        split; [eapply extends_trans; [apply extends_handoff|exact H2]|].
        split; [cbn; rewrite E, H3; reflexivity|]. simpl. lia.
    + destruct (IH p O) as (p' & more & H1 & H2 & H3 & H4).
      exists p', more. repeat split; try assumption; try apply H2.
      simpl. lia.
Qed.

Lemma Error_events more : forall l,
  forallb is_event more = true ->
  flat_map (fun d => match d with DError e => [e] | _ => [] end) (l ++ more)
  = flat_map (fun d => match d with DError e => [e] | _ => [] end) l.
Proof.
  intros l H. rewrite flat_map_app.
  replace (flat_map _ more) with (@nil Errno); [apply app_nil_r|].
  induction more as [|d more IH]; [reflexivity|].
  cbn in H. apply andb_true_iff in H as [Hd H].
  cbn [flat_map]. rewrite <- IH by exact H.
  destruct d; try discriminate; reflexivity.
Qed.

(** Every message takes at least a header from the frame. *)
Lemma parse_count n : forall b,
  (length b <= n)%nat ->
  16 * Z.of_nat (length (fst (ParseNetlinkMessage b))) <= len b.
Proof.
  induction n as [|n IH]; intros b L; rewrite ParseNetlinkMessage_unfold.
  - destruct b; [|simpl in L; lia]. vm_compute. discriminate.
  - pose proof (len_nonneg b) as Hb.
    destruct (len b <? NLMSG_HDRLEN); [cbn [fst length]; lia|].
    destruct (netlinkMessageHeaderAndData b) as [[[h dbuf] dlen]|err] eqn:E;
      [|cbn [fst length]; lia].
    pose proof (header_ok _ _ _ _ E) as Hd.
    pose proof (header_shrinks _ _ _ _ E) as Hs.
    specialize (IH (skipn (Z.to_nat dlen) b) ltac:(lia)).
    assert (Hl : len (skipn (Z.to_nat dlen) b) = len b - dlen).
    { unfold len in *. rewrite length_skipn. unfold NLMSG_HDRLEN in Hd. lia. }
    rewrite Hl in IH. unfold NLMSG_HDRLEN in Hd.
    destruct (ParseNetlinkMessage (skipn (Z.to_nat dlen) b)) as [ms [e|]];
      cbn [cons_msg fst length] in *; lia.
Qed.

(** X12: a frame of at least a netlink header, whatever its bytes, never
    puts anything on the error channel and never stops the loop: the pass
    goes on, what it hands over are events only, and there is at most one
    of them for every 16 bytes of the frame. *)
Theorem decoding_never_reports (frame : list byte) (p : PsEvent) :
  closed p = [] -> NLMSG_HDRLEN <= len frame ->
  exists p' more,
    received (RecvOk frame) p = Continue p'
    /\ handoffs p' = handoffs p ++ more
    /\ forallb is_event more = true
    /\ Error p' = Error p
    /\ 16 * Z.of_nat (length more) <= len frame.
Proof.
  intros O L. unfold received.
  apply Z.ltb_ge in L. rewrite L.
  pose proof (parse_count (length frame) frame (le_n _)) as C.
  destruct (ParseNetlinkMessage frame) as [msgs e]. cbn [fst] in C.
  destruct (dispatch_extends msgs p O) as (p' & more & -> & X & E & N).
  exists p', more. split; [reflexivity|].
  destruct X as (X & _). split; [exact X|]. split; [exact E|].
  split; [unfold Error; rewrite X; apply Error_events, E|lia].
Qed.

Lemma decoding_never_reports_witness :
  exists p' more,
    received (RecvOk (frame_of [fork_100_101] ++ [Byte.xff])) p0 = Continue p'
    /\ handoffs p' = handoffs p0 ++ more
    /\ forallb is_event more = true
    /\ Error p' = Error p0
    /\ 16 * Z.of_nat (length more)
       <= len (frame_of [fork_100_101] ++ [Byte.xff]).
Proof.
  apply (decoding_never_reports (frame_of [fork_100_101] ++ [Byte.xff]) p0).
  - reflexivity.
  - vm_compute. discriminate.
Defined.

Lemma received_extends r p :
  closed p = [] ->
  exists p' more, received r p = Continue p' /\ extends p p' more.
Proof.
  intros O. unfold received. destruct r as [err|frame].
  - rewrite chan_send_open by exact O. eexists _, _.
    split; [reflexivity|apply extends_handoff].
  - destruct (_ <? _).
    + rewrite chan_send_open by exact O. eexists _, _.
      split; [reflexivity|apply extends_handoff].
    + destruct (ParseNetlinkMessage frame) as [msgs e].
      destruct (dispatch_extends msgs p O) as (p' & more & -> & X & _).
      eauto.
Qed.

(** On any further receives a running loop ends waiting for the next
    datagram, with what it handed over added at the end. *)
Lemma readEvents_extends inputs : forall p,
  done p = [] -> closed p = [] ->
  exists p' more, readEvents inputs p = Blocked p' /\ extends p p' more.
Proof.
  induction inputs as [|r inputs IH]; intros p D O.
  - cbn [readEvents]. unfold isDone. rewrite D.
    exists p, []. split; [reflexivity|apply extends_refl].
  - cbn [readEvents]. rewrite pass_running by exact D.
    destruct (received_extends r p O) as (q & m1 & -> & X).
    destruct (IH q) as (p' & m2 & R & Y).
    + destruct X as (_ & _ & X & _). congruence.
    + destruct X as (_ & X & _). congruence.
    + exists p', (m1 ++ m2). split; [exact R|].
      eapply extends_trans; [exact X|exact Y].
Qed.

(** C6: an error during the run does not end the loop.  With the loop
    running, a pass in which [Recvfrom] fails puts that error on the error
    channel and goes on, and a pass that receives a frame shorter than a
    netlink header puts [EINVAL] on the error channel, hands over no event,
    and goes on.  After either of them the loop performs the next receive:
    run on one such result it ends waiting in [Recvfrom] with exactly that
    error handed over, run on two it has handled both in order, and run on
    any further results it neither returns nor panics and what it hands
    over comes after the error. *)
Theorem loop_survives_errors (p : PsEvent) (err : Errno) (frame : list byte)
    (rest : list Recv) :
  done p = [] -> closed p = [] -> len frame < NLMSG_HDRLEN ->
  pass (RecvErr err) p = Continue (handoff (DError err) p)
  /\ pass (RecvOk frame) p = Continue (handoff (DError EINVAL) p)
  /\ readEvents [RecvErr err] p = Blocked (handoff (DError err) p)
  /\ readEvents [RecvOk frame] p = Blocked (handoff (DError EINVAL) p)
  /\ readEvents [RecvErr err; RecvOk frame] p
     = Blocked (handoff (DError EINVAL) (handoff (DError err) p))
  /\ readEvents [RecvOk frame; RecvErr err] p
     = Blocked (handoff (DError err) (handoff (DError EINVAL) p))
  /\ (exists p' more,
        readEvents (RecvErr err :: rest) p = Blocked p'
        /\ handoffs p' = handoffs p ++ DError err :: more)
  /\ (exists p' more,
        readEvents (RecvOk frame :: rest) p = Blocked p'
        /\ handoffs p' = handoffs p ++ DError EINVAL :: more)
  /\ Error (handoff (DError err) p) = Error p ++ [err]
  /\ Error (handoff (DError EINVAL) p) = Error p ++ [EINVAL]
  /\ events (handoff (DError err) p) = events p
  /\ events (handoff (DError EINVAL) p) = events p.
Proof.
  intros D O S. apply Z.ltb_lt in S.
  assert (P1 : pass (RecvErr err) p = Continue (handoff (DError err) p)).
  { rewrite pass_running by exact D. unfold received.
    rewrite chan_send_open by exact O. reflexivity. }
  assert (P2 : forall q, done q = [] -> closed q = [] ->
               pass (RecvOk frame) q = Continue (handoff (DError EINVAL) q)).
  { intros q Dq Oq. rewrite pass_running by exact Dq. unfold received.
    rewrite S, chan_send_open by exact Oq. reflexivity. }
  assert (P3 : forall q e, done q = [] -> closed q = [] ->
               pass (RecvErr e) q = Continue (handoff (DError e) q)).
  { intros q e Dq Oq. rewrite pass_running by exact Dq. unfold received.
    rewrite chan_send_open by exact Oq. reflexivity. }
  assert (B : forall q, done q = [] -> readEvents [] q = Blocked q).
  { intros q Dq. cbn [readEvents]. unfold isDone. rewrite Dq. reflexivity. }
  split; [exact P1|]. split; [apply P2; assumption|].
  split; [cbn [readEvents]; rewrite P1; apply B, D|].
  split; [cbn [readEvents]; rewrite P2 by assumption; apply B, D|].
  split.
  { change (readEvents [RecvErr err; RecvOk frame] p)
      with (match pass (RecvErr err) p with
            | Continue q => readEvents [RecvOk frame] q
            | Return q => Returned q
            | Crash => Panicked
            end).
    rewrite P1. cbn [readEvents]. rewrite P2 by assumption. apply B, D. }
  split.
  { change (readEvents [RecvOk frame; RecvErr err] p)
      with (match pass (RecvOk frame) p with
            | Continue q => readEvents [RecvErr err] q
            | Return q => Returned q
            | Crash => Panicked
            end).
    rewrite P2 by assumption. cbn [readEvents].
    rewrite P3 by assumption. apply B, D. }
  split.
  { cbn [readEvents]. rewrite P1.
    destruct (readEvents_extends rest (handoff (DError err) p) D O)
      as (p' & more & R & X & _).
    exists p', more. split; [exact R|].
    rewrite X. cbn [handoffs handoff]. rewrite <- app_assoc. reflexivity. }
  split.
  { cbn [readEvents]. rewrite P2 by assumption.
    destruct (readEvents_extends rest (handoff (DError EINVAL) p) D O)
      as (p' & more & R & X & _).
    exists p', more. split; [exact R|].
    rewrite X. cbn [handoffs handoff]. rewrite <- app_assoc. reflexivity. }
  rewrite !Error_handoff_error, !events_handoff_error.
  repeat split; reflexivity.
Qed.

Lemma loop_survives_errors_witness :
  pass (RecvErr 5) w0 = Continue (handoff (DError 5) w0)
  /\ pass (RecvOk [Byte.x01]) w0 = Continue (handoff (DError EINVAL) w0)
  /\ readEvents [RecvErr 5] w0 = Blocked (handoff (DError 5) w0)
  /\ readEvents [RecvOk [Byte.x01]] w0 = Blocked (handoff (DError EINVAL) w0)
  /\ readEvents [RecvErr 5; RecvOk [Byte.x01]] w0
     = Blocked (handoff (DError EINVAL) (handoff (DError 5) w0))
  /\ readEvents [RecvOk [Byte.x01]; RecvErr 5] w0
     = Blocked (handoff (DError 5) (handoff (DError EINVAL) w0))
  /\ (exists p' more,
        readEvents (RecvErr 5 :: [RecvOk (frame_of [fork_100_101])]) w0
        = Blocked p'
        /\ handoffs p' = handoffs w0 ++ DError 5 :: more)
  /\ (exists p' more,
        readEvents (RecvOk [Byte.x01] :: [RecvOk (frame_of [fork_100_101])])
          w0 = Blocked p'
        /\ handoffs p' = handoffs w0 ++ DError EINVAL :: more)
  /\ Error (handoff (DError 5) w0) = Error w0 ++ [5]
  /\ Error (handoff (DError EINVAL) w0) = Error w0 ++ [EINVAL]
  /\ events (handoff (DError 5) w0) = events w0
  /\ events (handoff (DError EINVAL) w0) = events w0.
Proof.
  apply (loop_survives_errors w0 5 [Byte.x01]
           [RecvOk (frame_of [fork_100_101])]);
    [reflexivity | reflexivity | reflexivity].
Defined.

(** X13: with nothing in [done] and the channels open, no sequence of
    results of [Recvfrom], errors and frames of any bytes, makes
    [readEvents] return or panic: after the last of them the loop waits
    for the next datagram.  What was handed over before is still there, in
    the same order, in front of what was added; the channels are still
    open, and the listener and the watch table are untouched. *)
Theorem readEvents_never_ends (inputs : list Recv) : forall (p : PsEvent),
  done p = [] -> closed p = [] ->
  exists p' more,
    readEvents inputs p = Blocked p'
    /\ handoffs p' = handoffs p ++ more
    /\ closed p' = [] /\ done p' = []
    /\ watches p' = watches p /\ listener p' = listener p.
Proof.
  induction inputs as [|r inputs IH]; intros p D O.
  - cbn [readEvents]. unfold isDone. rewrite D.
    exists p, []. rewrite app_nil_r. auto 10.
  - cbn [readEvents]. rewrite pass_running by exact D.
    destruct (received_extends r p O)
      as (q & m1 & -> & X1 & X2 & X3 & X4 & X5 & _).
    destruct (IH q) as (p' & m2 & R & Y1 & Y2 & Y3 & Y4 & Y5);
      [congruence|congruence|].
    exists p', (m1 ++ m2). rewrite R, Y1, X1, app_assoc.
    repeat split; congruence.
Qed.

Lemma readEvents_never_ends_witness :
  exists p' more,
    readEvents [RecvErr 5; RecvOk [Byte.xff]; RecvOk (frame_of [exec_55])] w0
    = Blocked p'
    /\ handoffs p' = handoffs w0 ++ more
    /\ closed p' = [] /\ done p' = []
    /\ watches p' = watches w0 /\ listener p' = listener w0.
Proof.
  apply (readEvents_never_ends
           [RecvErr 5; RecvOk [Byte.xff]; RecvOk (frame_of [exec_55])] w0);
    reflexivity.
Defined.

(** ** The stop signal *)

(** X14: when [true] waits in [done], the loop takes it at its next check,
    before any receive: [finish] closes the four channels, each once, in
    the order fork, exec, exit, error, and [readEvents] returns; nothing is
    handed over any more and no result of [Recvfrom] is looked at. *)
Theorem done_true_stops_the_loop (inputs : list Recv) (p : PsEvent)
    (rest : list bool) :
  done p = true :: rest -> closed p = [] ->
  readEvents inputs p
  = Returned (mkPsEvent (listener p) (watches p) (handoffs p)
                [QFork; QExec; QExit; QError] rest (isClosed p)).
Proof.
  intros D O.
  assert (I : isDone p
              = Ok (true, mkPsEvent (listener p) (watches p) (handoffs p)
                            [QFork; QExec; QExit; QError] rest (isClosed p))).
  { unfold isDone. rewrite D. unfold finish, chan_close, is_closed.
    cbn [closed]. rewrite O. reflexivity. }
  destruct inputs as [|r inputs]; cbn [readEvents]; unfold pass;
    rewrite I; reflexivity.
Qed.

Lemma done_true_stops_the_loop_witness :
  readEvents [RecvOk (frame_of [fork_100_101])] (stopping true)
  = Returned (mkPsEvent (listener (stopping true)) (watches (stopping true))
                (handoffs (stopping true))
                [QFork; QExec; QExit; QError] [] (isClosed (stopping true))).
Proof.
  apply (done_true_stops_the_loop [RecvOk (frame_of [fork_100_101])]
           (stopping true) []); reflexivity.
Defined.

(** X15: [isDone] returns the value it received, not whether it received
    one.  When [false] waits in [done], the channels are closed all the
    same but the loop goes on to receive, and the error of a failed
    [Recvfrom] is then sent on the closed error channel: the goroutine
    panics. *)
Theorem done_false_crashes_the_loop (inputs : list Recv) (p : PsEvent)
    (err : Errno) (rest : list bool) :
  done p = false :: rest -> closed p = [] ->
  readEvents (RecvErr err :: inputs) p = Panicked.
Proof.
  intros D O. cbn [readEvents]. unfold pass, isDone. rewrite D.
  unfold finish, chan_close, is_closed. cbn [closed]. rewrite O.
  reflexivity.
Qed.

Lemma done_false_crashes_the_loop_witness :
  readEvents [RecvErr 5; RecvOk (frame_of [fork_100_101])] (stopping false)
  = Panicked.
Proof.
  apply (done_false_crashes_the_loop [RecvOk (frame_of [fork_100_101])]
           (stopping false) 5 []); reflexivity.
Defined.
